(** * mini-table: the paginated edit-overlay controller

    A shallow embedding of [components/mini-table/table-editor.tsx] (the
    [TableEditor] component: remote record mapper, edit cache, pagination
    window, row creation) and of the editable cells of
    [components/mini-table/columns.tsx], followed by the properties of the
    specification that can be stated over them.

    Conventions of the embedding.
    - A JavaScript string is a [string]; one character stands for one code
      unit below 256.
    - A JavaScript object whose keys are computed at run time (a row, an
      edit-cache entry, the edit cache) is a [gmap] from property names to
      values; the spread [{...a, ...b}] is the union in which [b] wins.
    - React state is one record [State]; every [setX] of the source is a
      setter on it, applied in the order of the source.
    - The clock ([Date.now()], [new Date()]) and the network are inputs of
      the functions that read them. *)

From Stdlib Require Import ZArith Ascii String.
From stdpp Require Import gmap strings list fin_maps pretty.

Local Open Scope string_scope.

(** ** JavaScript strings *)

Module Js.

(** [WhiteSpace] and [LineTerminator] code units below 256: TAB, LF, VT, FF,
    CR, SP and NBSP. *)
Definition is_white_space (c : ascii) : bool :=
  let n := nat_of_ascii c in
  (n =? 9)%nat || (n =? 10)%nat || (n =? 11)%nat || (n =? 12)%nat
  || (n =? 13)%nat || (n =? 32)%nat || (n =? 160)%nat.

Fixpoint trimStart (s : string) : string :=
  match s with
  | String c s' => if is_white_space c then trimStart s' else s
  | EmptyString => EmptyString
  end.

Fixpoint trimEnd (s : string) : string :=
  match s with
  | String c s' =>
      match trimEnd s' with
      | EmptyString => if is_white_space c then EmptyString else String c EmptyString
      | t => String c t
      end
  | EmptyString => EmptyString
  end.

(** [String.prototype.trim] *)
Definition trim (s : string) : string := trimEnd (trimStart s).

(** [s.slice(b, e)] for [0 <= b <= e]; both ends are clamped to the length. *)
Fixpoint str_drop (n : nat) (s : string) : string :=
  match n, s with
  | S n', String _ s' => str_drop n' s'
  | _, _ => s
  end.

Fixpoint str_take (n : nat) (s : string) : string :=
  match n, s with
  | S n', String c s' => String c (str_take n' s')
  | _, _ => EmptyString
  end.

Definition slice (b e : nat) (s : string) : string :=
  str_take (e - b) (str_drop b s).

Fixpoint starts_with (p s : string) : bool :=
  match p, s with
  | EmptyString, _ => true
  | String a p', String b s' => if Ascii.eqb a b then starts_with p' s' else false
  | String _ _, EmptyString => false
  end.

(** [s.replace(pat, rep)] with a string pattern: the first occurrence only. *)
Fixpoint replace (pat rep s : string) : string :=
  if starts_with pat s then rep +:+ str_drop (String.length pat) s
  else match s with
       | String c s' => String c (replace pat rep s')
       | EmptyString => EmptyString
       end.

(** Truthiness of a string-or-undefined operand: [undefined], [null] and the
    empty string are falsy. *)
Definition truthy (o : option string) : bool :=
  match o with
  | Some (String _ _) => true
  | _ => false
  end.

(** [a || b] *)
Definition or (a b : option string) : option string :=
  if truthy a then a else b.

(** [a ?? d] *)
Definition nullish (a : option string) (d : string) : string :=
  default d a.

(** [a || d] where [d] is a string *)
Definition or_str (a : option string) (d : string) : string :=
  default d (or a (Some d)).

(** [String(n)] for a non-negative integer [n] *)
Definition String_nat (n : nat) : string := pretty n.

(** [String(z)] for an integer [z] *)
Definition String_Z (z : Z) : string := pretty z.

End Js.

(** ** Dates

    Modelled from the ECMAScript specification of [Date]: a time value is a
    number of milliseconds since 1970-01-01T00:00:00Z, here a [Z];
    [toISOString] prints it in UTC as [YYYY-MM-DDTHH:mm:ss.sssZ], with a
    signed six-digit year outside 0..9999. Every reading of [Date.now()] is a
    valid time value, for which [toISOString] does not throw. *)

Module JsDate.

Local Open Scope Z_scope.

Definition msPerDay : Z := 86400000.

(** Zero-padded decimal of width [w] *)
Fixpoint pad_go (w : nat) (z : Z) (acc : string) : string :=
  match w with
  | O => acc
  | S w' => pad_go w' (z / 10) (String (ascii_of_nat (48 + Z.to_nat (z mod 10))) acc)
  end.

Definition pad (w : nat) (z : Z) : string := pad_go w z "".

(** Year, month and day of the month of a day number (days since the epoch,
    proleptic Gregorian calendar). *)
Definition civil (day : Z) : Z * Z * Z :=
  let z := day + 719468 in
  let era := z / 146097 in
  let doe := z mod 146097 in
  let yoe := (doe - doe / 1460 + doe / 36524 - doe / 146096) / 365 in
  let doy := doe - (365 * yoe + yoe / 4 - yoe / 100) in
  let mp := (5 * doy + 2) / 153 in
  let d := doy - (153 * mp + 2) / 5 + 1 in
  let m := if mp <? 10 then mp + 3 else mp - 9 in
  let y := yoe + era * 400 + (if m <=? 2 then 1 else 0) in
  (y, m, d).

Definition year_string (y : Z) : string :=
  if (0 <=? y) && (y <=? 9999) then pad 4 y
  else (if y <? 0 then "-" else "+") +:+ pad 6 (Z.abs y).

Definition toISOString (t : Z) : string :=
  let '(y, m, d) := civil (t / msPerDay) in
  let ms := t mod msPerDay in
  year_string y +:+ "-" +:+ pad 2 m +:+ "-" +:+ pad 2 d +:+ "T"
  +:+ pad 2 (ms / 3600000) +:+ ":" +:+ pad 2 (ms / 60000 mod 60) +:+ ":"
  +:+ pad 2 (ms / 1000 mod 60) +:+ "." +:+ pad 3 (ms mod 1000) +:+ "Z".

(** [new Date(t).toISOString().slice(0, 19).replace("T", " ")] *)
Definition timestamp (t : Z) : string :=
  Js.replace "T" " " (Js.slice 0 19 (toISOString t)).

End JsDate.

(** ** Data model ([table-editor.tsx]) *)

(** The values a property of a [CustomerRow] holds: strings, and the boolean
    of [isNew]. *)
Inductive Val :=
  | VStr (s : string)
  | VBool (b : bool).

Global Instance Val_eq_dec : EqDecision Val.
Proof. solve_decision. Defined.

(** [interface CustomerRow]: an object with the properties [id], [bio],
    [name], [language], [version], [state], [createdDate] and, optionally,
    [isNew]. [Partial<CustomerRow>] is the same type with any of them
    missing; a property that is missing reads as [undefined] ([None]). *)
Abbreviation CustomerRow := (gmap string Val).

(** [type EditCache = Record<string, Partial<CustomerRow>>] *)
Abbreviation EditCache := (gmap string (gmap string Val)).

(** [{ ...a, ...b }] *)
Definition spread (a b : gmap string Val) : gmap string Val := b ∪ a.

(** The property key that [o[v]] looks up, for [v] a property value or
    [undefined] *)
Definition property_key (v : option Val) : string :=
  match v with
  | Some (VStr s) => s
  | Some (VBool true) => "true"
  | Some (VBool false) => "false"
  | None => "undefined"
  end.

Definition RANDOM_STATES : list string :=
  ["CA"; "NY"; "TX"; "FL"; "IL"; "PA"; "OH"; "GA"; "NC"; "MI"].

Definition RANDOM_VERSIONS : list string :=
  ["new customer"; "served"; "to contact"; "pause"].

(** [type RemoteRow = Record<string, any>]. The mapper reads ten properties of
    a remote record; its casts [as string] and the types of [CustomerRow] say
    what it expects there, and the embedding keeps that typing: a property is
    a string, or [None] when it is missing or [null]. [name] is a string or
    an object with [first] and [last]; [None] also stands for a [name] of any
    other type, which the mapper treats like a missing one. *)
Module Remote.

Inductive Name :=
  | NameString (s : string)
  | NameObject (first last : option string).

Record RemoteRow := {
  guid : option string;
  id : option string;
  _id : option string;
  name : option Name;
  username : option string;
  email : option string;
  bio : option string;
  company : option string;
  eyeColor : option string;
  favoriteFruit : option string;
}.

End Remote.

Abbreviation RemoteRow := Remote.RemoteRow.

(** [arr[i]] for an index below the length, which [idx % arr.length] is *)
Definition at_index (arr : list string) (i : nat) : string :=
  default "" (arr !! i).

(** [mapRemoteToCustomer(item, idx)]; [now] is the value of [Date.now()]
    during the call. *)
Definition mapRemoteToCustomer (now : Z) (item : RemoteRow) (idx : nat) : CustomerRow :=
  let id :=
    Js.or_str (Js.or (Js.or (Remote.guid item) (Remote.id item)) (Remote._id item))
              (Js.String_nat idx) in
  let fallback :=
    Js.or_str (Js.or (Remote.username item) (Remote.email item))
              ("User " +:+ Js.String_nat idx) in
  let name :=
    match Remote.name item with
    | Some (Remote.NameString s) => if Js.truthy (Some s) then s else fallback
    | Some (Remote.NameObject first last) =>
        if Js.truthy (Js.or first last)
        then Js.trim (Js.nullish first "" +:+ " " +:+ Js.nullish last "")
        else fallback
    | None => fallback
    end in
  let bio := Js.or_str (Remote.bio item) "" in
  let language :=
    Js.or_str (Js.or (Js.or (Remote.company item) (Remote.eyeColor item))
                     (Remote.favoriteFruit item)) "" in
  let state := at_index RANDOM_STATES (idx mod length RANDOM_STATES) in
  let createdDate :=
    JsDate.timestamp (now - Z.of_nat (idx mod 365) * 24 * 60 * 60 * 1000)%Z in
  let version := at_index RANDOM_VERSIONS (idx mod length RANDOM_VERSIONS) in
  {[ "id" := VStr id; "name" := VStr name; "bio" := VStr bio;
     "language" := VStr language; "state" := VStr state;
     "createdDate" := VStr createdDate; "version" := VStr version ]}.

Definition PAGE_SIZE : nat := 40.

(** [arr.slice(b, e)] for [0 <= b <= e] *)
Definition slice {A} (arr : list A) (b e : nat) : list A :=
  take (e - b) (drop b arr).

(** ** The component state ([TableEditor]) *)

Record State := {
  allRows : list CustomerRow;
  data : list CustomerRow;
  isLoading : bool;
  isError : option string;
  hasMore : bool;
  editCache : EditCache;
}.

Definition setAllRows (v : list CustomerRow) (st : State) : State :=
  {| allRows := v; data := data st; isLoading := isLoading st;
     isError := isError st; hasMore := hasMore st; editCache := editCache st |}.

Definition setData (v : list CustomerRow) (st : State) : State :=
  {| allRows := allRows st; data := v; isLoading := isLoading st;
     isError := isError st; hasMore := hasMore st; editCache := editCache st |}.

Definition setIsLoading (v : bool) (st : State) : State :=
  {| allRows := allRows st; data := data st; isLoading := v;
     isError := isError st; hasMore := hasMore st; editCache := editCache st |}.

Definition setIsError (v : option string) (st : State) : State :=
  {| allRows := allRows st; data := data st; isLoading := isLoading st;
     isError := v; hasMore := hasMore st; editCache := editCache st |}.

Definition setHasMore (v : bool) (st : State) : State :=
  {| allRows := allRows st; data := data st; isLoading := isLoading st;
     isError := isError st; hasMore := v; editCache := editCache st |}.

Definition setEditCache (v : EditCache) (st : State) : State :=
  {| allRows := allRows st; data := data st; isLoading := isLoading st;
     isError := isError st; hasMore := hasMore st; editCache := v |}.

(** What the initialiser of [editCache] finds in local storage under
    ["mini-table:edits"]. *)
Inductive Stored :=
  | NoWindow
  | NoItem
  | Unparsable
  | Parsed (cache : EditCache).

Definition initialEditCache (s : Stored) : EditCache :=
  match s with
  | Parsed cache => cache
  | NoWindow | NoItem | Unparsable => ∅
  end.

(** The [useState] defaults *)
Definition initialState (s : Stored) : State :=
  {| allRows := []; data := []; isLoading := false; isError := None;
     hasMore := true; editCache := initialEditCache s |}.

(** [applyEdits(rows)], with the [editCache] it closes over *)
Definition applyEdits (editCache : EditCache) (rows : list CustomerRow) : list CustomerRow :=
  map (fun r => spread r (default ∅ (editCache !! property_key (r !! "id")))) rows.

(** How [await fetch(url)] followed by [await res.json()] ends. [Rejected] and
    [BodyError] carry [e?.message] of what was thrown; [BodyError] is a body
    that [res.json()] rejects or that is not an array of records. *)
Inductive Body :=
  | BodyRows (json : list RemoteRow)
  | BodyError (message : option string).

Inductive Fetched :=
  | Rejected (message : option string)
  | Response (status : nat) (body : Body).

(** [res.ok] *)
Definition ok (status : nat) : bool :=
  (200 <=? status)%nat && (status <=? 299)%nat.

(** The [catch] block of [fetchData] *)
Definition fetchData_catch (message : option string) (st : State) : State :=
  setIsError (Some (Js.nullish message "Failed to load data")) st.

(** [json.map(mapRemoteToCustomer)]; [clock i] is the value of [Date.now()]
    in the call for index [i]. *)
Definition map_mapRemoteToCustomer (clock : nat -> Z) (json : list RemoteRow)
  : list CustomerRow :=
  imap (fun idx item => mapRemoteToCustomer (clock idx) item idx) json.

(** [fetchData()] up to its first [await] *)
Definition fetchData_begin (st : State) : State :=
  let st := setIsLoading true st in
  setIsError None st.

(** [fetchData()] from the point where it resumes with the outcome [res].
    [applyEdits] is the one of the render that started the effect;
    [cancelled] is the flag of the effect at that point (nothing is awaited
    between its two reads). *)
Definition fetchData_resume (clock : nat -> Z)
    (applyEdits : list CustomerRow -> list CustomerRow)
    (res : Fetched) (cancelled : bool) (st : State) : State :=
  let st :=
    match res with
    | Rejected message => fetchData_catch message st
    | Response status body =>
        if negb (ok status)
        then fetchData_catch (Some ("HTTP " +:+ Js.String_nat status)) st
        else match body with
             | BodyError message => fetchData_catch message st
             | BodyRows json =>
                 if cancelled then st
                 else
                   let mapped := map_mapRemoteToCustomer clock json in
                   let st := setAllRows mapped st in
                   let first := slice mapped 0 PAGE_SIZE in
                   let st := setData (applyEdits first) st in
                   setHasMore (PAGE_SIZE <? length mapped)%nat st
             end
    end in
  if negb cancelled then setIsLoading false st else st.

(** One run of [fetchData()] with no other event between its start and its
    resumption *)
Definition fetchData (clock : nat -> Z) (res : Fetched) (cancelled : bool)
    (st : State) : State :=
  fetchData_resume clock (applyEdits (editCache st)) res cancelled
    (fetchData_begin st).

(** [loadMore()] *)
Definition loadMore (st : State) : State :=
  let allRows := allRows st in
  let applyEdits := applyEdits (editCache st) in
  let st := setIsLoading true st in
  let st :=
    let prev := data st in
    let nextIndex := length prev in
    let nextSlice := slice allRows nextIndex (nextIndex + PAGE_SIZE) in
    if (length nextSlice =? 0)%nat then setData prev st
    else
      let merged := (prev ++ applyEdits nextSlice)%list in
      let st :=
        if (length allRows <=? length merged)%nat then setHasMore false st else st in
      setData merged st in
  setIsLoading false st.

(** The guard of the intersection observer: [loadMore] is triggered only when
    [hasMore && !isLoading && !isError]. *)
Definition may_trigger (st : State) : bool :=
  hasMore st && negb (isLoading st) && negb (Js.truthy (isError st)).

(** [updateCell(rowId, key, value)] *)
Definition updateCell (rowId key value : string) (st : State) : State :=
  let st :=
    let prev := editCache st in
    setEditCache
      (<[rowId := <[key := VStr value]> (default ∅ (prev !! rowId))]> prev) st in
  let prev := data st in
  setData
    (map (fun r =>
            if bool_decide (r !! "id" = Some (VStr rowId))
            then <[key := VStr value]> r else r) prev) st.

(** [addNewRow()]; [now] is the value of [Date.now()], [now'] the time of
    [new Date()]. *)
Definition addNewRow (now now' : Z) (st : State) : State :=
  let id := "new-" +:+ Js.String_Z now in
  let newRow : CustomerRow :=
    {[ "id" := VStr id; "bio" := VStr ""; "name" := VStr "";
       "language" := VStr ""; "version" := VStr "new customer";
       "state" := VStr ""; "createdDate" := VStr (JsDate.timestamp now');
       "isNew" := VBool true ]} in
  setData (newRow :: data st) st.

(** ** Editable cells ([columns.tsx]) *)

(** [type UpdateCellFn], as a transition of the state [W] of whoever owns the
    table *)
Definition UpdateCellFn (W : Type) : Type := string -> string -> string -> W -> W.

Module EditableTextCell.

(** The props of the cell that [commit] and [cancel] read *)
Record Props := {
  columnKey : string;
  placeholder : option string;
  validate : option (string -> bool);
  errorMessage : option string;
}.

(** The three [useState] cells *)
Record Cell := {
  value : string;
  editing : bool;
  error : string;
}.

Definition setValue (v : string) (c : Cell) : Cell :=
  {| value := v; editing := editing c; error := error c |}.

Definition setEditing (v : bool) (c : Cell) : Cell :=
  {| value := value c; editing := v; error := error c |}.

Definition setError (v : string) (c : Cell) : Cell :=
  {| value := value c; editing := editing c; error := v |}.

(** The state after mounting on a row whose value in this column is
    [initialValue] *)
Definition initial (initialValue : string) : Cell :=
  {| value := initialValue; editing := false; error := "" |}.

(** [commit()]; [updateCell] is [table?.options?.meta?.updateCell] and [w]
    the state it acts on. *)
Definition commit {W} (updateCell : option (UpdateCellFn W)) (rowId : string)
    (p : Props) (c : Cell) (w : W) : Cell * W :=
  match updateCell with
  | None => (setEditing false c, w)
  | Some updateCell =>
      let ok := match validate p with
                | Some validate => validate (value c)
                | None => true
                end in
      if negb ok then (setError (Js.or_str (errorMessage p) "Invalid value") c, w)
      else
        let c := setError "" c in
        let w := updateCell rowId (columnKey p) (value c) w in
        (setEditing false c, w)
  end.

(** [cancel()] *)
Definition cancel (initialValue : string) (c : Cell) : Cell :=
  setEditing false (setError "" (setValue initialValue c)).

(** [onClick] of the display mode and [onChange] of the input *)
Definition activate (c : Cell) : Cell := setEditing true c.
Definition change (v : string) (c : Cell) : Cell := setValue v c.

(** What the editing mode renders: the input's value, and the message under
    it when [error] is non-empty. *)
Definition rendered_input (c : Cell) : option string :=
  if editing c then Some (value c) else None.

Definition rendered_message (c : Cell) : option string :=
  if editing c && Js.truthy (Some (error c)) then Some (error c) else None.

End EditableTextCell.

Module EditableSelectCell.

Record Cell := {
  value : string;
  editing : bool;
}.

(** [commit()] *)
Definition commit {W} (updateCell : option (UpdateCellFn W)) (rowId columnKey : string)
    (c : Cell) (w : W) : Cell * W :=
  let w := match updateCell with
           | Some updateCell => updateCell rowId columnKey (value c) w
           | None => w
           end in
  ({| value := value c; editing := false |}, w).

End EditableSelectCell.

(** [/^[A-Z]{2}$/.test(s)] *)
Definition is_upper (c : ascii) : bool :=
  let n := nat_of_ascii c in (65 <=? n)%nat && (n <=? 90)%nat.

Definition two_uppercase (s : string) : bool :=
  match s with
  | String a (String b EmptyString) => is_upper a && is_upper b
  | _ => false
  end.

(** The [validate] props of the [columns] *)
Definition validate_name (v : string) : bool :=
  (0 <? String.length (Js.trim v))%nat.

Definition validate_language (v : string) : bool :=
  (0 <? String.length (Js.trim v))%nat.

Definition validate_state (v : string) : bool :=
  two_uppercase (Js.trim v).

(** The four [EditableTextCell] columns of [columns] *)
Module columns.

Definition bio : EditableTextCell.Props :=
  {| EditableTextCell.columnKey := "bio";
     EditableTextCell.placeholder := Some "Enter bio";
     EditableTextCell.validate := None;
     EditableTextCell.errorMessage := None |}.

Definition name : EditableTextCell.Props :=
  {| EditableTextCell.columnKey := "name";
     EditableTextCell.placeholder := Some "Required";
     EditableTextCell.validate := Some validate_name;
     EditableTextCell.errorMessage := Some "Name is required" |}.

Definition language : EditableTextCell.Props :=
  {| EditableTextCell.columnKey := "language";
     EditableTextCell.placeholder := Some "Enter language";
     EditableTextCell.validate := Some validate_language;
     EditableTextCell.errorMessage := Some "Language is required" |}.

Definition state : EditableTextCell.Props :=
  {| EditableTextCell.columnKey := "state";
     EditableTextCell.placeholder := Some "State (e.g., CA)";
     EditableTextCell.validate := Some validate_state;
     EditableTextCell.errorMessage := Some "Use 2 uppercase letters" |}.

End columns.

(** [meta={{ updateCell }}]: what the [TableEditor] hands to its table *)
Definition meta_updateCell : option (UpdateCellFn State) := Some updateCell.

(** ** The rest of the component ([table-editor.tsx], [columns.tsx]) *)

(** The callback of the intersection observer: [loadMore] is called when the
    sentinel intersects and the guard holds. *)
Definition observe (isIntersecting : bool) (st : State) : State :=
  if isIntersecting && may_trigger st then loadMore st else st.


Definition shows_spinner (st : State) : bool :=
  negb (Js.truthy (isError st)) && isLoading st.

Definition shows_end_of_results (st : State) : bool :=
  negb (Js.truthy (isError st)) && negb (hasMore st)
  && (0 <? length (allRows st))%nat.

(** The fetch effect depends on [applyEdits], which depends on [editCache]:
    [updateCell] stores a new cache object, so the effect runs again after
    every edit. An edit followed by the run of [fetchData] it triggers. *)
Definition edit_and_refetch (clock : nat -> Z) (res : Fetched)
    (rowId key value : string) (st : State) : State :=
  fetchData clock res false (updateCell rowId key value st).

(** The events of the component, each a run of one of its handlers *)
Inductive Event :=
  | Fetch (clock : nat -> Z) (res : Fetched) (cancelled : bool)
  | LoadMore
  | UpdateCell (rowId key value : string)
  | AddNewRow (now now' : Z).

Definition step (ev : Event) (st : State) : State :=
  match ev with
  | Fetch clock res cancelled => fetchData clock res cancelled st
  | LoadMore => loadMore st
  | UpdateCell rowId key value => updateCell rowId key value st
  | AddNewRow now now' => addNewRow now now' st
  end.

Definition run (evs : list Event) (st : State) : State :=
  foldl (fun st ev => step ev st) st evs.

(** The events that come from fetching, scrolling and the cell editors (which
    write [bio], [name], [language], [version] and [state], never [id]) *)
Definition editor_event (ev : Event) : bool :=
  match ev with
  | AddNewRow _ _ => false
  | UpdateCell _ key _ => negb (String.eqb key "id")
  | Fetch _ _ _ | LoadMore => true
  end.

(** The id of the row is a string *)
Definition has_string_id (r : CustomerRow) : bool :=
  match r !! "id" with
  | Some (VStr _) => true
  | _ => false
  end.

(** The effect of [EditableTextCell] that follows [initialValue] *)
Definition EditableTextCell_sync (initialValue : string)
    (c : EditableTextCell.Cell) : EditableTextCell.Cell :=
  EditableTextCell.setValue initialValue c.

(** [row.getValue(columnKey) ?? ""] followed by [String(...)], for a row of
    the page *)
Definition cell_initialValue (r : CustomerRow) (columnKey : string) : string :=
  match r !! columnKey with
  | Some (VStr s) => s
  | Some (VBool true) => "true"
  | Some (VBool false) => "false"
  | None => ""
  end.

(** [cancel()] of [EditableSelectCell] *)
Definition EditableSelectCell_cancel (initialValue : string)
    (c : EditableSelectCell.Cell) : EditableSelectCell.Cell :=
  {| EditableSelectCell.value := initialValue;
     EditableSelectCell.editing := false |}.


(** A remote record in which [guid], [id] and [_id] are all falsy *)
Definition no_remote_id (item : RemoteRow) : bool :=
  negb (Js.truthy (Remote.guid item)) && negb (Js.truthy (Remote.id item))
  && negb (Js.truthy (Remote._id item)).

(** The events other than a fetch *)
Definition not_fetch (ev : Event) : bool :=
  match ev with
  | Fetch _ _ _ => false
  | LoadMore | UpdateCell _ _ _ | AddNewRow _ _ => true
  end.

(** The characters of a string *)
Definition chars (s : string) : list ascii := list_ascii_of_string s.

(** ** Sample inputs *)

(** A remote record with no property the mapper reads *)
Definition bare : RemoteRow :=
  {| Remote.guid := None; Remote.id := None; Remote._id := None;
     Remote.name := None; Remote.username := None; Remote.email := None;
     Remote.bio := None; Remote.company := None; Remote.eyeColor := None;
     Remote.favoriteFruit := None |}.

(** A response body of [n] such records; their mapped ids are ["0"], ["1"], ... *)
Definition bare_json (n : nat) : list RemoteRow := replicate n bare.

(** A clock that stands still *)
Definition frozen (t : Z) : nat -> Z := fun _ => t.

(** The ids of the visible page *)
Definition ids (rows : list CustomerRow) : list (option Val) :=
  map (fun r => r !! "id") rows.

(** A mapped row with the given id and bio *)
Definition customer (id bio : string) : CustomerRow :=
  {[ "id" := VStr id; "name" := VStr "Ada"; "bio" := VStr bio;
     "language" := VStr "ACME"; "state" := VStr "CA";
     "createdDate" := VStr "2024-02-29 00:00:00"; "version" := VStr "served" ]}.

(** The edit cache of the scenario of the specification *)
Definition bio_cache : EditCache :=
  {[ "row-3" := {[ "bio" := VStr "hi" ]} ]}.

(** ** Predicates of the statements *)

(** No entry of the cache changes the id of the row it is stored under: an
    entry that binds [id] binds it to a value that reads as its own key. *)
Definition keeps_id (cache : EditCache) : Prop :=
  map_Forall (fun k (e : gmap string Val) =>
                from_option (fun v => property_key (Some v) = k) True (e !! "id"))
             cache.

Global Instance keeps_id_dec cache : Decision (keeps_id cache).
Proof.
  unfold keeps_id. apply map_Forall_dec. intros k e.
  destruct (e !! "id"); cbn; apply _.
Defined.

(** No entry of the cache binds [id] at all. *)
Definition no_id (cache : EditCache) : Prop :=
  map_Forall (fun _ (e : gmap string Val) => e !! "id" = None) cache.

(** The fields an overlay entry holds: the column keys of the editable cells
    of [columns] (four [EditableTextCell] columns and the
    [EditableSelectCell] column), the only keys [updateCell] is called with. *)
Definition editable_fields : list string :=
  ["bio"; "name"; "language"; "version"; "state"].

(** Every entry of the cache binds editable fields only. *)
Definition editable_entries (cache : EditCache) : Prop :=
  map_Forall (fun _ (e : gmap string Val) =>
                map_Forall (fun k _ => k ∈ editable_fields) e) cache.

Global Instance editable_entries_dec cache : Decision (editable_entries cache).
Proof. unfold editable_entries. apply _. Defined.

(** The page is the cache applied to a prefix of the full record set, whose
    rows have string ids, and no cache entry binds [id]. *)
Definition consistent (st : State) : Prop :=
  no_id (editCache st)
  /\ Forall (fun r => has_string_id r = true) (allRows st)
  /\ data st = applyEdits (editCache st) (take (length (data st)) (allRows st)).

(** * Properties *)

(** ** The helpers *)

Example toISOString_epoch : JsDate.toISOString 0 = "1970-01-01T00:00:00.000Z".
Proof. vm_compute. reflexivity. Qed.

Example toISOString_leap :
  JsDate.toISOString 1709251199999 = "2024-02-29T23:59:59.999Z".
Proof. vm_compute. reflexivity. Qed.

Example toISOString_before_epoch :
  JsDate.toISOString (-1) = "1969-12-31T23:59:59.999Z".
Proof. vm_compute. reflexivity. Qed.

Example toISOString_year_0 :
  JsDate.toISOString (-62167219200000) = "0000-01-01T00:00:00.000Z".
Proof. vm_compute. reflexivity. Qed.

Example toISOString_year_minus_1 :
  JsDate.toISOString (-62198755200000) = "-000001-01-01T00:00:00.000Z".
Proof. vm_compute. reflexivity. Qed.

Example toISOString_year_9999 :
  JsDate.toISOString 253402300799999 = "9999-12-31T23:59:59.999Z".
Proof. vm_compute. reflexivity. Qed.

Example toISOString_year_10000 :
  JsDate.toISOString 253402300800000 = "+010000-01-01T00:00:00.000Z".
Proof. vm_compute. reflexivity. Qed.

Example timestamp_2000 : JsDate.timestamp 951782400000 = "2000-02-29 00:00:00".
Proof. vm_compute. reflexivity. Qed.

Example trim_sample : Js.trim "  CA  " = "CA".
Proof. reflexivity. Qed.

Example String_nat_sample : Js.String_nat 105 = "105".
Proof. vm_compute. reflexivity. Qed.

Example mapped_bare_7 :
  mapRemoteToCustomer 86400000 bare 7
  = {[ "id" := VStr "7"; "name" := VStr "User 7"; "bio" := VStr "";
       "language" := VStr ""; "state" := VStr "GA";
       "createdDate" := VStr "1969-12-26 00:00:00"; "version" := VStr "pause" ]}.
Proof. compute_done. Qed.

(** The indices [idx % RANDOM_STATES.length] and
    [idx % RANDOM_VERSIONS.length] are below the lengths. *)
Lemma RANDOM_STATES_in_range idx :
  is_Some (RANDOM_STATES !! (idx mod length RANDOM_STATES)).
Proof.
  apply lookup_lt_is_Some. change (length RANDOM_STATES) with 10.
  apply Nat.mod_upper_bound. lia.
Qed.

Lemma RANDOM_VERSIONS_in_range idx :
  is_Some (RANDOM_VERSIONS !! (idx mod length RANDOM_VERSIONS)).
Proof.
  apply lookup_lt_is_Some. change (length RANDOM_VERSIONS) with 4.
  apply Nat.mod_upper_bound. lia.
Qed.

(** ** Pagination window *)

Section Pagination.

Implicit Types (st : State) (rows : list CustomerRow) (cache : EditCache).

Lemma length_applyEdits cache rows : length (applyEdits cache rows) = length rows.
Proof. unfold applyEdits. apply length_map. Qed.

Lemma length_slice {A} (arr : list A) b e :
  length (slice arr b e) = (e - b) `min` (length arr - b).
Proof. unfold slice. by rewrite length_take, length_drop. Qed.

Lemma length_map_mapRemoteToCustomer clock json :
  length (map_mapRemoteToCustomer clock json) = length json.
Proof. unfold map_mapRemoteToCustomer. apply length_imap. Qed.

(** The first page: what a successful fetch leaves in the state. *)
Lemma fetchData_ok clock status json st :
  ok status = true ->
  let mapped := map_mapRemoteToCustomer clock json in
  fetchData clock (Response status (BodyRows json)) false st
  = {| allRows := mapped;
       data := applyEdits (editCache st) (slice mapped 0 PAGE_SIZE);
       isLoading := false; isError := None;
       hasMore := (PAGE_SIZE <? length mapped)%nat;
       editCache := editCache st |}.
Proof.
  intros Hok. unfold fetchData, fetchData_resume. rewrite Hok. reflexivity.
Qed.

(** [loadMore] never touches the full record set or the edit cache. *)
Lemma loadMore_allRows st : allRows (loadMore st) = allRows st.
Proof. unfold loadMore. repeat case_match; reflexivity. Qed.

Lemma loadMore_editCache st : editCache (loadMore st) = editCache st.
Proof. unfold loadMore. repeat case_match; reflexivity. Qed.

(** The page after [loadMore]: the slice that starts at the current length. *)
Lemma loadMore_data st :
  data (loadMore st)
  = (data st ++ applyEdits (editCache st)
       (slice (allRows st) (length (data st)) (length (data st) + PAGE_SIZE)))%list.
Proof.
  unfold loadMore. cbn beta zeta.
  change (data (setIsLoading true st)) with (data st).
  set (sl := slice _ _ _).
  destruct (Nat.eqb_spec (length sl) 0) as [H0|_].
  - apply nil_length_inv in H0. rewrite H0. cbn. by rewrite app_nil_r.
  - by case_match.
Qed.

Lemma loadMore_length st :
  length (data (loadMore st))
  = length (data st) + PAGE_SIZE `min` (length (allRows st) - length (data st)).
Proof.
  rewrite loadMore_data, length_app, length_applyEdits, length_slice.
  f_equal. f_equal. lia.
Qed.

Lemma loadMore_hasMore st :
  hasMore (loadMore st)
  = if (length (allRows st) <=? length (data st))%nat then hasMore st
    else if (length (allRows st) <=? length (data st) + PAGE_SIZE)%nat then false
    else hasMore st.
Proof.
  unfold loadMore. cbn beta zeta.
  change (data (setIsLoading true st)) with (data st).
  set (sl := slice _ _ _).
  assert (Hsl : length sl
    = PAGE_SIZE `min` (length (allRows st) - length (data st))).
  { unfold sl. rewrite length_slice. f_equal. lia. }
  rewrite length_app, length_applyEdits.
  unfold PAGE_SIZE in *.
  destruct (Nat.leb_spec (length (allRows st)) (length (data st))) as [Hle|Hgt].
  - rewrite (proj2 (Nat.eqb_eq (length sl) 0)) by lia. done.
  - rewrite (proj2 (Nat.eqb_neq (length sl) 0)) by lia.
    destruct (Nat.leb_spec (length (allRows st)) (length (data st) + 40)).
    + rewrite (proj2 (Nat.leb_le _ _)) by lia. done.
    + rewrite (proj2 (Nat.leb_gt _ _)) by lia. done.
Qed.

(** Exhaustion: once the page is as long as the full record set, [loadMore]
    changes neither the page nor [hasMore]. *)
Lemma loadMore_exhausted st :
  length (allRows st) <= length (data st) ->
  data (loadMore st) = data st /\ hasMore (loadMore st) = hasMore st.
Proof.
  intros Hle. split.
  - rewrite loadMore_data. unfold slice.
    rewrite drop_ge by done. rewrite take_nil. cbn. by rewrite app_nil_r.
  - rewrite loadMore_hasMore. by rewrite (proj2 (Nat.leb_le _ _)) by done.
Qed.

Lemma iter_loadMore_exhausted n st :
  length (allRows st) <= length (data st) ->
  data (Nat.iter n loadMore st) = data st
  /\ hasMore (Nat.iter n loadMore st) = hasMore st
  /\ allRows (Nat.iter n loadMore st) = allRows st.
Proof.
  intros Hle. induction n as [|n (IHd & IHh & IHa)]; [done|].
  rewrite !Nat.iter_succ, loadMore_allRows.
  destruct (loadMore_exhausted (Nat.iter n loadMore st)) as [Hd Hh].
  { rewrite IHd, IHa. done. }
  rewrite Hd, Hh. done.
Qed.

(** The length of the page after [n] calls of [loadMore]: pages of
    [PAGE_SIZE] rows, bounded by the full record set. *)
Lemma iter_loadMore_length n st :
  length (data st) <= length (allRows st) ->
  length (data (Nat.iter n loadMore st))
  = (length (data st) + n * PAGE_SIZE) `min` length (allRows st)
  /\ allRows (Nat.iter n loadMore st) = allRows st.
Proof.
  intros Hle. induction n as [|n [IHl IHa]]; [split; [cbn; lia | done]|].
  rewrite !Nat.iter_succ, loadMore_allRows, loadMore_length, IHl, IHa.
  split; [unfold PAGE_SIZE; lia | done].
Qed.

(** Once [hasMore] is false the observer no longer calls [loadMore]. *)
Lemma may_trigger_hasMore st : may_trigger st = true -> hasMore st = true.
Proof. unfold may_trigger. by intros [[? _]%andb_prop _]%andb_prop. Qed.

End Pagination.

(** C1. With a full record set of 100 records ([PAGE_SIZE] is 40), the
    initial load shows 40 rows and [hasMore] is true; one [loadMore] shows 80
    rows, [hasMore] still true; a second shows 100 rows and sets [hasMore] to
    false; any number of further [loadMore] calls leaves the 100 rows and the
    false [hasMore] as they are. *)
Theorem pagination_100_records clock status json stored :
  ok status = true ->
  length json = 100 ->
  let st0 := fetchData clock (Response status (BodyRows json)) false
               (initialState stored) in
  let st1 := loadMore st0 in
  let st2 := loadMore st1 in
  (length (data st0) = 40 /\ hasMore st0 = true)
  /\ (length (data st1) = 80 /\ hasMore st1 = true)
  /\ (length (data st2) = 100 /\ hasMore st2 = false)
  /\ forall n, data (Nat.iter n loadMore st2) = data st2
               /\ length (data (Nat.iter n loadMore st2)) = 100
               /\ hasMore (Nat.iter n loadMore st2) = false.
Proof.
  intros Hok Hlen st0 st1 st2.
  assert (Ha0 : length (allRows st0) = 100).
  { unfold st0. rewrite fetchData_ok by done. cbn.
    by rewrite length_map_mapRemoteToCustomer. }
  assert (Hd0 : length (data st0) = 40).
  { unfold st0. rewrite fetchData_ok by done. cbn [data].
    rewrite length_applyEdits, length_slice, length_map_mapRemoteToCustomer, Hlen.
    reflexivity. }
  assert (Hh0 : hasMore st0 = true).
  { unfold st0. rewrite fetchData_ok by done. cbn [hasMore].
    rewrite length_map_mapRemoteToCustomer, Hlen. reflexivity. }
  assert (Ha1 : length (allRows st1) = 100) by (unfold st1; by rewrite loadMore_allRows).
  assert (Hd1 : length (data st1) = 80).
  { unfold st1. rewrite loadMore_length, Ha0, Hd0. reflexivity. }
  assert (Hh1 : hasMore st1 = true).
  { unfold st1. rewrite loadMore_hasMore, Ha0, Hd0. exact Hh0. }
  assert (Ha2 : length (allRows st2) = 100) by (unfold st2; by rewrite loadMore_allRows).
  assert (Hd2 : length (data st2) = 100).
  { unfold st2. rewrite loadMore_length, Ha1, Hd1. reflexivity. }
  assert (Hh2 : hasMore st2 = false).
  { unfold st2. rewrite loadMore_hasMore, Ha1, Hd1. reflexivity. }
  repeat split; try done.
  all: destruct (iter_loadMore_exhausted n st2) as (Hd & Hh & _); [lia|].
  - done.
  - by rewrite Hd.
  - by rewrite Hh.
Qed.

Lemma pagination_100_records_witness :
  let st0 := fetchData (frozen 0) (Response 200 (BodyRows (bare_json 100))) false
               (initialState NoItem) in
  length (data st0) = 40 /\ length (data (loadMore (loadMore st0))) = 100
  /\ hasMore (loadMore (loadMore (loadMore st0))) = false.
Proof.
  destruct (pagination_100_records (frozen 0) 200 (bare_json 100) NoItem)
    as ((H0 & _) & _ & (H2 & _) & H3); [reflexivity | reflexivity |].
  split; [exact H0 | split; [exact H2 | exact (proj2 (proj2 (H3 1)))]].
Defined.

(** [addNewRow] puts one row in front of the page and touches nothing else. *)
Lemma addNewRow_data now now' st :
  exists newRow, data (addNewRow now now' st) = newRow :: data st
    /\ newRow !! "isNew" = Some (VBool true)
    /\ allRows (addNewRow now now' st) = allRows st
    /\ hasMore (addNewRow now now' st) = hasMore st.
Proof. eexists. repeat split. Qed.

(** After a row was added, [loadMore] takes its slice of the full record set
    one record further on: [nextIndex] is the length of the page, new rows
    included. *)
Lemma loadMore_after_addNewRow now now' st :
  drop (S (length (data st))) (data (loadMore (addNewRow now now' st)))
  = applyEdits (editCache st)
      (slice (allRows st) (S (length (data st))) (S (length (data st)) + PAGE_SIZE)).
Proof.
  rewrite loadMore_data.
  destruct (addNewRow_data now now' st) as (newRow & -> & _ & -> & _).
  cbn [length]. rewrite drop_app_length'; reflexivity.
Qed.

(** C3. New rows are counted by the pagination of [loadMore]. With 81 records
    and the first page shown, [loadMore] appends the records 40..79 and
    leaves [hasMore] true; after one [addNewRow] it appends the records
    41..80 instead and sets [hasMore] to false, and no later [loadMore] ever
    shows record 40. *)
Theorem new_row_shifts_next_page :
  let st0 := fetchData (frozen 0) (Response 200 (BodyRows (bare_json 81))) false
               (initialState NoItem) in
  let plain := loadMore st0 in
  let added := loadMore (addNewRow 5 5 st0) in
  ids (data st0) = map (fun i => Some (VStr (Js.String_nat i))) (seq 0 40)
  /\ ids (data plain) = map (fun i => Some (VStr (Js.String_nat i))) (seq 0 80)
  /\ hasMore plain = true
  /\ ids (data added)
     = Some (VStr "new-5")
       :: map (fun i => Some (VStr (Js.String_nat i))) (seq 0 40 ++ seq 41 40)
  /\ hasMore added = false
  /\ forall n, data (Nat.iter n loadMore added) = data added.
Proof.
  intros st0 plain added.
  split; [vm_compute; reflexivity|].
  split; [vm_compute; reflexivity|].
  split; [vm_compute; reflexivity|].
  split; [vm_compute; reflexivity|].
  split; [vm_compute; reflexivity|].
  intros n. apply iter_loadMore_exhausted.
  unfold added. rewrite loadMore_allRows, loadMore_length.
  vm_compute. lia.
Qed.

(** A failed fetch leaves the page, the full record set, [hasMore] and the
    edit cache as they were. *)
Lemma fetchData_failed_frame clock status body cancelled st :
  ok status = false ->
  let st' := fetchData clock (Response status body) cancelled st in
  data st' = data st /\ allRows st' = allRows st /\ hasMore st' = hasMore st
  /\ editCache st' = editCache st
  /\ isError st' = Some ("HTTP " +:+ Js.String_nat status).
Proof.
  intros Hok. unfold fetchData, fetchData_resume. rewrite Hok.
  destruct cancelled; done.
Qed.

(** C7. When the response has a status outside 200..299 (and the component is
    still mounted), [isError] is set to the message "HTTP <status>", a
    non-empty string that replaces the grid; the visible page is still
    empty, [hasMore] is still its default [true], and [isLoading] is back to
    false. *)
Theorem fetch_http_error clock status body stored :
  ok status = false ->
  let st := fetchData clock (Response status body) false (initialState stored) in
  isError st = Some ("HTTP " +:+ Js.String_nat status)
  /\ Js.truthy (isError st) = true
  /\ data st = []
  /\ allRows st = []
  /\ hasMore st = hasMore (initialState stored)
  /\ hasMore st = true
  /\ isLoading st = false.
Proof.
  intros Hok. unfold fetchData, fetchData_resume. rewrite Hok. cbn. done.
Qed.

Lemma fetch_http_error_witness :
  let st := fetchData (frozen 0) (Response 500 (BodyRows (bare_json 3))) false
              (initialState NoItem) in
  ok 500 = false /\ isError st = Some "HTTP 500" /\ data st = []
  /\ hasMore st = true /\ isLoading st = false.
Proof.
  destruct (fetch_http_error (frozen 0) 500 (BodyRows (bare_json 3)) NoItem)
    as (He & _ & Hd & _ & _ & Hh & Hl); [reflexivity|].
  split; [reflexivity|]. split; [exact He|]. split; [exact Hd|].
  split; [exact Hh | exact Hl].
Defined.

(** ** Edit overlay store *)

Section Overlay.

Implicit Types (st : State) (rows : list CustomerRow) (cache : EditCache)
  (r e : gmap string Val).

Lemma updateCell_editCache rowId key value st :
  editCache (updateCell rowId key value st)
  = <[rowId := <[key := VStr value]> (default ∅ (editCache st !! rowId))]>
      (editCache st).
Proof. reflexivity. Qed.

Lemma updateCell_data rowId key value st :
  data (updateCell rowId key value st)
  = map (fun r => if bool_decide (r !! "id" = Some (VStr rowId))
                  then <[key := VStr value]> r else r) (data st).
Proof. reflexivity. Qed.

Lemma applyEdits_lookup cache rows i :
  applyEdits cache rows !! i
  = (fun r => spread r (default ∅ (cache !! property_key (r !! "id")))) <$> rows !! i.
Proof. unfold applyEdits. apply list_lookup_fmap. Qed.

(** Reapplying one entry to a row changes nothing more. *)
Lemma spread_idempotent r e : spread (spread r e) e = spread r e.
Proof. unfold spread. by rewrite (assoc_L (∪)), (idemp_L (∪)). Qed.

(** An entry without an [id] leaves the id of the row alone. *)
Lemma spread_id_unbound r e :
  e !! "id" = None -> spread r e !! "id" = r !! "id".
Proof. intros He. unfold spread. by rewrite lookup_union_r. Qed.

Lemma no_id_keeps_id cache : no_id cache -> keeps_id cache.
Proof.
  unfold no_id, keeps_id. intros Hno.
  eapply map_Forall_impl; [exact Hno|]. cbn. intros k e ->. exact I.
Qed.

(** The key under which a row is looked up is the same after its entry was
    applied, when the cache keeps ids. *)
Lemma keeps_id_property_key cache r :
  keeps_id cache ->
  let e := default ∅ (cache !! property_key (r !! "id")) in
  property_key (spread r e !! "id") = property_key (r !! "id").
Proof.
  intros Hk e. unfold spread.
  destruct (cache !! property_key (r !! "id")) as [e'|] eqn:Hc; subst e; cbn.
  - rewrite lookup_union. specialize (Hk _ _ Hc). cbn in Hk.
    destruct (e' !! "id") as [v|] eqn:Hid; cbn in *.
    + rewrite union_Some_l. done.
    + by rewrite (left_id_L None _).
  - by rewrite (left_id_L ∅ _).
Qed.

(** The cell editors write the keys [bio], [name], [language], [version] and
    [state]; a cache without [id] bindings stays one under such writes. *)
Lemma updateCell_no_id rowId key value st :
  key <> "id" -> no_id (editCache st) -> no_id (editCache (updateCell rowId key value st)).
Proof.
  intros Hkey Hno. rewrite updateCell_editCache. unfold no_id in *.
  apply map_Forall_insert_2; [|done].
  rewrite lookup_insert_ne by done.
  destruct (editCache st !! rowId) as [e|] eqn:He; cbn; [by apply (Hno _ _ He)|done].
Qed.

End Overlay.

(** C2. After [updateCell(r, f1, v1)] and then [updateCell(r, f2, v2)] with
    [f1] and [f2] different, the cache entry of [r] binds [f1] to [v1] and
    [f2] to [v2]; the second edit changes no field of the entry but [f2]. *)
Theorem set_then_set_keeps_both rowId f1 v1 f2 v2 st :
  f1 <> f2 ->
  let st1 := updateCell rowId f1 v1 st in
  let st2 := updateCell rowId f2 v2 st1 in
  exists e1 e2 : gmap string Val,
    editCache st1 !! rowId = Some e1
    /\ editCache st2 !! rowId = Some e2
    /\ e2 !! f1 = Some (VStr v1)
    /\ e2 !! f2 = Some (VStr v2)
    /\ forall k, k <> f2 -> e2 !! k = e1 !! k.
Proof.
  intros Hne st1 st2.
  exists (<[f1 := VStr v1]> (default ∅ (editCache st !! rowId))).
  exists (<[f2 := VStr v2]> (<[f1 := VStr v1]> (default ∅ (editCache st !! rowId)))).
  unfold st2, st1. rewrite !updateCell_editCache.
  rewrite !lookup_insert_eq. cbn.
  split; [done|]. split; [done|]. split.
  { rewrite lookup_insert_ne by done. apply lookup_insert_eq. }
  split; [done|].
  intros k Hk. by rewrite lookup_insert_ne.
Qed.

Lemma set_then_set_keeps_both_witness :
  exists e : gmap string Val,
    editCache (updateCell "row-3" "state" "NY"
                 (updateCell "row-3" "bio" "hi" (initialState NoItem))) !! "row-3"
    = Some e
    /\ e !! "bio" = Some (VStr "hi") /\ e !! "state" = Some (VStr "NY").
Proof.
  destruct (set_then_set_keeps_both "row-3" "bio" "hi" "state" "NY"
              (initialState NoItem)) as (e1 & e2 & _ & H2 & Hb & Hs & _).
  - discriminate.
  - exists e2. split; [exact H2 | split; [exact Hb | exact Hs]].
Defined.

(** C5. [applyEdits] returns unchanged, at its position, every row whose id
    has no entry in the edit cache; the list keeps its length. *)
Theorem applyEdits_identity_without_entry cache (rows : list CustomerRow) i r :
  rows !! i = Some r ->
  cache !! property_key (r !! "id") = None ->
  applyEdits cache rows !! i = Some r
  /\ length (applyEdits cache rows) = length rows.
Proof.
  intros Hi Hnone. split; [|apply length_applyEdits].
  rewrite applyEdits_lookup, Hi. cbn. rewrite Hnone. cbn.
  unfold spread. by rewrite (left_id_L ∅ _).
Qed.

Lemma applyEdits_identity_without_entry_witness :
  applyEdits bio_cache [customer "row-2" ""; customer "row-3" ""] !! 0
  = Some (customer "row-2" "").
Proof.
  apply (applyEdits_identity_without_entry bio_cache
           [customer "row-2" ""; customer "row-3" ""] 0 (customer "row-2" "")).
  - reflexivity.
  - vm_compute. reflexivity.
Defined.

(** Overlay entries never bind [id]. *)
Lemma editable_entries_no_id cache : editable_entries cache -> no_id cache.
Proof.
  unfold editable_entries, no_id. intros He.
  eapply map_Forall_impl; [exact He|]. cbn. intros _ e Hfields.
  destruct (e !! "id") as [v|] eqn:Hid; [|done].
  specialize (Hfields _ _ Hid). cbn in Hfields. unfold editable_fields in Hfields.
  repeat (apply elem_of_cons in Hfields as [Hfields|Hfields]; [discriminate|]).
  by apply elem_of_nil in Hfields.
Qed.

(** The overlay the component builds holds editable fields only: the empty
    cache does, and [updateCell] with the key of an editable column keeps
    it so. *)
Lemma updateCell_editable_entries rowId key value st :
  key ∈ editable_fields ->
  editable_entries (editCache st) ->
  editable_entries (editCache (updateCell rowId key value st)).
Proof.
  intros Hkey He. rewrite updateCell_editCache. unfold editable_entries in *.
  apply map_Forall_insert_2; [|done].
  apply map_Forall_insert_2; [done|].
  destruct (editCache st !! rowId) as [e|] eqn:Hr; cbn.
  - exact (He _ _ Hr).
  - apply map_Forall_empty.
Qed.

Lemma columns_keys_editable :
  Forall (fun p => EditableTextCell.columnKey p ∈ editable_fields)
         [columns.bio; columns.name; columns.language; columns.state].
Proof. repeat constructor; compute_done. Qed.

(** Idempotence for every cache in which no entry changes the id of its
    row. *)
Lemma applyEdits_idempotent_keeps_id cache (rows : list CustomerRow) :
  keeps_id cache ->
  applyEdits cache (applyEdits cache rows) = applyEdits cache rows.
Proof.
  intros Hk. unfold applyEdits. rewrite map_map. apply map_ext. intros r.
  rewrite (keeps_id_property_key cache r Hk). apply spread_idempotent.
Qed.

(** C6. Overlay application is idempotent: for every record list and every
    overlay (a map from row ids to partial sets of the editable fields),
    applying the overlay twice gives the same merged records as applying it
    once; and applying one entry to a record twice gives the same merged
    record as applying it once, for every entry. *)
Theorem applyEdits_idempotent cache (rows : list CustomerRow) :
  editable_entries cache ->
  applyEdits cache (applyEdits cache rows) = applyEdits cache rows
  /\ forall r e : gmap string Val, spread (spread r e) e = spread r e.
Proof.
  intros He. split; [|apply spread_idempotent].
  apply applyEdits_idempotent_keeps_id, no_id_keeps_id.
  by apply editable_entries_no_id.
Qed.

Lemma applyEdits_idempotent_witness :
  editable_entries bio_cache
  /\ applyEdits bio_cache (applyEdits bio_cache [customer "row-3" ""])
     = applyEdits bio_cache [customer "row-3" ""].
Proof.
  assert (He : editable_entries bio_cache) by compute_done.
  split; [exact He|].
  exact (proj1 (applyEdits_idempotent bio_cache [customer "row-3" ""] He)).
Defined.

(** The scenario of the specification: the stored overlay gives row-3 its
    bio and leaves its other fields as mapped. *)
Example applyEdits_bio_scenario :
  applyEdits bio_cache [customer "row-3" ""] = [customer "row-3" "hi"].
Proof. compute_done. Qed.

(** C10. [updateCell(rowId, key, value)] keeps the length of the visible page
    and the position of every row; a row whose id is not [rowId] is
    unchanged, a row whose id is [rowId] gets [key] bound to [value]; the
    cache entries of all other ids are unchanged. When no visible row has
    the id [rowId] the page is unchanged, and the cache still receives an
    entry for [rowId]. *)
Theorem updateCell_frame rowId key value st :
  let st' := updateCell rowId key value st in
  length (data st') = length (data st)
  /\ (forall i (r : CustomerRow), data st !! i = Some r ->
        r !! "id" <> Some (VStr rowId) -> data st' !! i = Some r)
  /\ (forall i (r : CustomerRow), data st !! i = Some r ->
        r !! "id" = Some (VStr rowId) ->
        data st' !! i = Some (<[key := VStr value]> r))
  /\ (key <> "id" -> ids (data st') = ids (data st))
  /\ (forall k, k <> rowId -> editCache st' !! k = editCache st !! k)
  /\ ((forall r : CustomerRow, r ∈ data st -> r !! "id" <> Some (VStr rowId)) ->
        data st' = data st)
  /\ editCache st' !! rowId
     = Some (<[key := VStr value]> (default ∅ (editCache st !! rowId)))
  /\ allRows st' = allRows st /\ hasMore st' = hasMore st
  /\ isLoading st' = isLoading st /\ isError st' = isError st.
Proof.
  intros st'. unfold st'. rewrite updateCell_data, updateCell_editCache.
  split; [apply length_map|].
  split.
  { intros i r Hi Hid. rewrite list_lookup_fmap, Hi. cbn.
    by rewrite bool_decide_eq_false_2. }
  split.
  { intros i r Hi Hid. rewrite list_lookup_fmap, Hi. cbn.
    by rewrite bool_decide_eq_true_2. }
  split.
  { intros Hkey. unfold ids. rewrite map_map. apply map_ext. intros r.
    case_bool_decide; [|done]. by rewrite lookup_insert_ne. }
  split; [intros k Hk; by rewrite lookup_insert_ne|].
  split.
  { intros Hall. rewrite <- (map_id (data st)) at 2.
    apply map_ext_in. intros r Hr. apply list_elem_of_In in Hr.
    by rewrite bool_decide_eq_false_2 by (by apply Hall). }
  split; [apply lookup_insert_eq|done].
Qed.

Lemma updateCell_frame_witness :
  let st := setData [customer "row-2" ""; customer "row-3" ""] (initialState NoItem) in
  data (updateCell "row-9" "bio" "hi" st) = data st
  /\ editCache (updateCell "row-9" "bio" "hi" st) !! "row-9"
     = Some {[ "bio" := VStr "hi" ]}
  /\ data (updateCell "row-3" "bio" "hi" st) !! 0 = Some (customer "row-2" "").
Proof.
  intros st.
  destruct (updateCell_frame "row-9" "bio" "hi" st)
    as (_ & _ & _ & _ & _ & Hnone & Hentry & _).
  destruct (updateCell_frame "row-3" "bio" "hi" st) as (_ & Hother & _).
  split; [|split].
  - apply Hnone. intros r Hr.
    apply list_elem_of_In in Hr. cbn in Hr.
    destruct Hr as [<-|[<-|[]]]; vm_compute; discriminate.
  - exact Hentry.
  - apply Hother; [reflexivity | vm_compute; discriminate].
Defined.

(** ** Remote record mapper *)

(** The properties of a mapped row *)
Lemma mapRemoteToCustomer_createdDate now item idx :
  mapRemoteToCustomer now item idx !! "createdDate"
  = Some (VStr (JsDate.timestamp
                  (now - Z.of_nat (idx mod 365) * 24 * 60 * 60 * 1000)%Z)).
Proof. unfold mapRemoteToCustomer. cbn zeta. by simplify_map_eq. Qed.

Lemma mapRemoteToCustomer_id item idx now :
  mapRemoteToCustomer now item idx !! "id"
  = Some (VStr (Js.or_str (Js.or (Js.or (Remote.guid item) (Remote.id item))
                                 (Remote._id item)) (Js.String_nat idx))).
Proof. unfold mapRemoteToCustomer. cbn zeta. by simplify_map_eq. Qed.

(** C4, as stated, fails: the creation timestamp is read off the clock, so
    two mappings of the same record and index a second apart differ. *)
Lemma mapper_reads_clock :
  mapRemoteToCustomer 0 bare 0 !! "createdDate" = Some (VStr "1970-01-01 00:00:00")
  /\ mapRemoteToCustomer 1000 bare 0 !! "createdDate"
     = Some (VStr "1970-01-01 00:00:01")
  /\ mapRemoteToCustomer 0 bare 0 <> mapRemoteToCustomer 1000 bare 0.
Proof.
  split; [|split]; compute_done.
Qed.

(** C4, amended. The mapper is a function of the record, the index and the
    value of [Date.now()] at the call: two mappings of the same record and
    index agree on every property but [createdDate], which is the timestamp
    of the clock value minus [idx % 365] days; they are identical when the
    two clock values are the same. *)
Theorem mapper_pure_up_to_clock now now' item idx :
  (forall k, k <> "createdDate" ->
     mapRemoteToCustomer now item idx !! k = mapRemoteToCustomer now' item idx !! k)
  /\ mapRemoteToCustomer now item idx
     = <["createdDate" :=
           VStr (JsDate.timestamp
                   (now - Z.of_nat (idx mod 365) * 24 * 60 * 60 * 1000)%Z)]>
         (mapRemoteToCustomer now' item idx)
  /\ (now = now' ->
      mapRemoteToCustomer now item idx = mapRemoteToCustomer now' item idx).
Proof.
  assert (Hother : forall k, k <> "createdDate" ->
     mapRemoteToCustomer now item idx !! k = mapRemoteToCustomer now' item idx !! k).
  { intros k Hk. unfold mapRemoteToCustomer. cbn zeta.
    rewrite !lookup_insert. repeat case_decide; try done. }
  split; [exact Hother|]. split; [|by intros ->].
  apply map_eq. intros k. destruct (decide (k = "createdDate")) as [->|Hk].
  - by rewrite lookup_insert_eq, mapRemoteToCustomer_createdDate.
  - rewrite lookup_insert_ne by done. by apply Hother.
Qed.

Lemma mapper_pure_up_to_clock_witness :
  mapRemoteToCustomer 0 bare 7 !! "state" = mapRemoteToCustomer 1000 bare 7 !! "state"
  /\ mapRemoteToCustomer 5 bare 7 = mapRemoteToCustomer 5 bare 7.
Proof.
  destruct (mapper_pure_up_to_clock 0 1000 bare 7) as (Hother & _).
  destruct (mapper_pure_up_to_clock 5 5 bare 7) as (_ & _ & Hsame).
  split; [apply Hother; discriminate | apply Hsame; reflexivity].
Defined.

(** ** Cell edit protocol *)

Section Cells.

Import EditableTextCell.

(** The message of a failed commit is never empty. *)
Lemma or_str_message_truthy (m : option string) :
  Js.truthy (Some (Js.or_str m "Invalid value")) = true.
Proof. by destruct m as [[|??]|]. Qed.

(** A commit that fails validation, with [updateCell] supplied. *)
Lemma commit_invalid {W} (upd : UpdateCellFn W) rowId p check c w :
  validate p = Some check -> check (value c) = false ->
  commit (Some upd) rowId p c w
  = (setError (Js.or_str (errorMessage p) "Invalid value") c, w).
Proof. intros Hv Hc. unfold commit. by rewrite Hv, Hc. Qed.

(** A commit that passes validation. *)
Lemma commit_valid {W} (upd : UpdateCellFn W) rowId p check c w :
  validate p = Some check -> check (value c) = true ->
  commit (Some upd) rowId p c w
  = (setEditing false (setError "" c), upd rowId (columnKey p) (value c) w).
Proof. intros Hv Hc. unfold commit. by rewrite Hv, Hc. Qed.

Lemma two_uppercase_spec s :
  two_uppercase s = true
  <-> exists a b, s = String a (String b EmptyString)
        /\ 65 <= nat_of_ascii a <= 90 /\ 65 <= nat_of_ascii b <= 90.
Proof.
  unfold two_uppercase, is_upper. split.
  - destruct s as [|a [|b [|??]]]; try discriminate.
    intros H. exists a, b. split; [done|].
    apply andb_prop in H as [Ha Hb].
    apply andb_prop in Ha as [Ha1 Ha2]. apply andb_prop in Hb as [Hb1 Hb2].
    apply Nat.leb_le in Ha1, Ha2, Hb1, Hb2. lia.
  - intros (a & b & -> & Ha & Hb).
    apply andb_true_intro. split; apply andb_true_intro; split;
      apply Nat.leb_le; lia.
Qed.

End Cells.

(** C8. For every editable text cell of the table (the [TableEditor] hands
    its [updateCell] to the table, [meta={{ updateCell }}]), whatever the
    column's validator and message: a commit in the editing mode whose value
    fails the validator stays in the editing mode, shows the column's message
    (or "Invalid value" when the column has none), keeps the rejected value
    in the input, and leaves the whole state of the component, the edit
    cache and the rows included, as it is. *)
Theorem failed_commit_keeps_editing rowId (p : EditableTextCell.Props) check
    (c : EditableTextCell.Cell) (st : State) :
  EditableTextCell.validate p = Some check ->
  check (EditableTextCell.value c) = false ->
  EditableTextCell.editing c = true ->
  let c' := fst (EditableTextCell.commit meta_updateCell rowId p c st) in
  let st' := snd (EditableTextCell.commit meta_updateCell rowId p c st) in
  EditableTextCell.editing c' = true
  /\ EditableTextCell.error c'
     = Js.or_str (EditableTextCell.errorMessage p) "Invalid value"
  /\ EditableTextCell.error c' <> ""
  /\ EditableTextCell.rendered_message c' = Some (EditableTextCell.error c')
  /\ EditableTextCell.value c' = EditableTextCell.value c
  /\ EditableTextCell.rendered_input c' = Some (EditableTextCell.value c)
  /\ st' = st
  /\ editCache st' = editCache st
  /\ data st' = data st.
Proof.
  intros Hv Hc He c' st'.
  assert (Hci : EditableTextCell.commit meta_updateCell rowId p c st
    = (EditableTextCell.setError
         (Js.or_str (EditableTextCell.errorMessage p) "Invalid value") c, st))
    by exact (commit_invalid updateCell rowId p check c st Hv Hc).
  unfold c', st'. rewrite Hci. cbn [fst snd].
  unfold EditableTextCell.rendered_message, EditableTextCell.rendered_input.
  cbn. rewrite He. cbn.
  pose proof (or_str_message_truthy (EditableTextCell.errorMessage p)) as Ht.
  cbn in Ht. rewrite Ht.
  repeat split; try done.
  intros Hempty. rewrite Hempty in Ht. discriminate.
Qed.

Lemma failed_commit_keeps_editing_witness :
  let c := {| EditableTextCell.value := "ca"; EditableTextCell.editing := true;
              EditableTextCell.error := "" |} in
  let st := setData [customer "row-3" ""] (initialState NoItem) in
  let c' := fst (EditableTextCell.commit meta_updateCell "row-3" columns.state c st) in
  let st' := snd (EditableTextCell.commit meta_updateCell "row-3" columns.state c st) in
  validate_state "ca" = false
  /\ EditableTextCell.editing c' = true
  /\ EditableTextCell.error c' = "Use 2 uppercase letters"
  /\ EditableTextCell.rendered_message c' = Some (EditableTextCell.error c')
  /\ EditableTextCell.value c' = "ca"
  /\ EditableTextCell.rendered_input c' = Some "ca"
  /\ st' = st.
Proof.
  intros c st c' st'. split; [reflexivity|].
  destruct (failed_commit_keeps_editing "row-3" columns.state validate_state c st)
    as (H1 & H2 & _ & H3 & H4 & H5 & H6 & _); [reflexivity..|].
  split; [exact H1|]. split; [exact H2|]. split; [exact H3|].
  split; [exact H4|]. split; [exact H5 | exact H6].
Defined.

(** C9. The validator of the state column rejects "ca" and accepts "CA"; it
    accepts a value exactly when the trimmed value consists of two characters
    in the range A..Z. In the [TableEditor], a commit of "ca" in a state cell
    is refused with the message "Use 2 uppercase letters" and writes
    nothing; a commit of "CA" leaves the editing mode and binds [state] to
    "CA" in the cache entry of the row, whose other fields are kept. *)
Theorem region_code_validation :
  validate_state "ca" = false
  /\ validate_state "CA" = true
  /\ (forall v, validate_state v = true
        <-> exists a b, Js.trim v = String a (String b EmptyString)
              /\ 65 <= nat_of_ascii a <= 90 /\ 65 <= nat_of_ascii b <= 90)
  /\ (forall rowId editing error st,
        EditableTextCell.commit meta_updateCell rowId columns.state
          {| EditableTextCell.value := "ca"; EditableTextCell.editing := editing;
             EditableTextCell.error := error |} st
        = ({| EditableTextCell.value := "ca"; EditableTextCell.editing := editing;
              EditableTextCell.error := "Use 2 uppercase letters" |}, st))
  /\ (forall rowId editing error st,
        let c := {| EditableTextCell.value := "CA";
                    EditableTextCell.editing := editing;
                    EditableTextCell.error := error |} in
        let c' := fst (EditableTextCell.commit meta_updateCell rowId columns.state c st) in
        let st' := snd (EditableTextCell.commit meta_updateCell rowId columns.state c st) in
        c' = {| EditableTextCell.value := "CA"; EditableTextCell.editing := false;
                EditableTextCell.error := "" |}
        /\ st' = updateCell rowId "state" "CA" st
        /\ exists e : gmap string Val,
             editCache st' !! rowId = Some e
             /\ e !! "state" = Some (VStr "CA")
             /\ forall k, k <> "state" ->
                  e !! k = default ∅ (editCache st !! rowId) !! k).
Proof.
  split; [reflexivity|]. split; [reflexivity|].
  split; [intros v; apply two_uppercase_spec|].
  split; [reflexivity|].
  intros rowId editing error st c c' st'.
  split; [reflexivity|]. split; [reflexivity|].
  exists (<["state" := VStr "CA"]> (default ∅ (editCache st !! rowId))).
  split; [apply lookup_insert_eq|].
  split; [apply lookup_insert_eq|].
  intros k Hk. by rewrite lookup_insert_ne.
Qed.

Lemma region_code_validation_witness :
  exists e : gmap string Val,
    editCache (snd (EditableTextCell.commit meta_updateCell "row-3" columns.state
                      {| EditableTextCell.value := "CA";
                         EditableTextCell.editing := true;
                         EditableTextCell.error := "" |}
                      (setEditCache bio_cache (initialState NoItem)))) !! "row-3"
    = Some e
    /\ e !! "state" = Some (VStr "CA") /\ e !! "bio" = Some (VStr "hi").
Proof.
  destruct region_code_validation as (_ & _ & _ & _ & Hca).
  destruct (Hca "row-3" true "" (setEditCache bio_cache (initialState NoItem)))
    as (_ & _ & e & He & Hs & Hk).
  exists e. split; [exact He|]. split; [exact Hs|].
  rewrite Hk by discriminate. reflexivity.
Defined.


(** * Further properties of the component *)

(** ** Pages after a successful fetch *)

Section Pages.

Implicit Types (st : State) (rows : list CustomerRow) (cache : EditCache).

Lemma applyEdits_app cache rows rows' :
  applyEdits cache (rows ++ rows')%list
  = (applyEdits cache rows ++ applyEdits cache rows')%list.
Proof. unfold applyEdits. apply map_app. Qed.

Lemma take_min_length {A} (l : list A) k : take (k `min` length l) l = take k l.
Proof.
  destruct (Nat.le_ge_cases k (length l)).
  - by rewrite Nat.min_l.
  - rewrite Nat.min_r by done. by rewrite !take_ge.
Qed.

(** [loadMore] extends an overlay-applied prefix of the full record set to
    the prefix that is one page longer. *)
Lemma loadMore_prefix st k :
  data st = applyEdits (editCache st) (take k (allRows st)) ->
  data (loadMore st)
  = applyEdits (editCache st) (take (k + PAGE_SIZE) (allRows st)).
Proof.
  intros Hd. rewrite loadMore_data, Hd, length_applyEdits, length_take.
  rewrite <- applyEdits_app. f_equal. unfold slice.
  replace (k `min` length (allRows st) + PAGE_SIZE - k `min` length (allRows st))
    with PAGE_SIZE by lia.
  rewrite <- (take_min_length (allRows st) k) at 1.
  rewrite take_take_drop.
  destruct (Nat.le_ge_cases k (length (allRows st))).
  - by rewrite Nat.min_l.
  - rewrite Nat.min_r by done. rewrite !take_ge; [done | lia | lia].
Qed.

Lemma iter_loadMore_prefix n st k :
  data st = applyEdits (editCache st) (take k (allRows st)) ->
  data (Nat.iter n loadMore st)
  = applyEdits (editCache st) (take (k + n * PAGE_SIZE) (allRows st))
  /\ editCache (Nat.iter n loadMore st) = editCache st
  /\ allRows (Nat.iter n loadMore st) = allRows st.
Proof.
  intros Hd. induction n as [|n (IHd & IHc & IHa)].
  - cbn. by rewrite Nat.add_0_r.
  - rewrite !Nat.iter_succ, loadMore_editCache, loadMore_allRows.
    split; [|done].
    rewrite (loadMore_prefix _ (k + n * PAGE_SIZE)).
    + rewrite IHc, IHa. f_equal. f_equal. lia.
    + by rewrite IHc, IHa.
Qed.

(** [loadMore] leaves [isLoading] false and [isError] as it was. *)
Lemma loadMore_flags st :
  isLoading (loadMore st) = false /\ isError (loadMore st) = isError st.
Proof. unfold loadMore. repeat case_match; done. Qed.

Lemma iter_loadMore_isError n st :
  isError (Nat.iter n loadMore st) = isError st.
Proof.
  induction n as [|n IH]; [done|].
  rewrite Nat.iter_succ. by rewrite (proj2 (loadMore_flags _)).
Qed.

(** When [hasMore] says whether rows remain, it still does after
    [loadMore]. *)
Lemma loadMore_hasMore_exact st :
  length (data st) <= length (allRows st) ->
  hasMore st = (length (data st) <? length (allRows st))%nat ->
  hasMore (loadMore st)
  = (length (data (loadMore st)) <? length (allRows (loadMore st)))%nat.
Proof.
  intros Hle Hh. rewrite loadMore_hasMore, loadMore_length, loadMore_allRows, Hh.
  unfold PAGE_SIZE.
  repeat match goal with
         | |- context [(?a <=? ?b)%nat] => destruct (Nat.leb_spec a b)
         | |- context [(?a <? ?b)%nat] => destruct (Nat.ltb_spec a b)
         end; try done; lia.
Qed.

Lemma iter_loadMore_hasMore_exact n st :
  length (data st) <= length (allRows st) ->
  hasMore st = (length (data st) <? length (allRows st))%nat ->
  hasMore (Nat.iter n loadMore st)
  = (length (data (Nat.iter n loadMore st)) <? length (allRows st))%nat.
Proof.
  intros Hle Hh. induction n as [|n IH]; [done|].
  destruct (iter_loadMore_length n st Hle) as [Hl Ha].
  rewrite !Nat.iter_succ.
  rewrite (loadMore_hasMore_exact (Nat.iter n loadMore st)).
  - by rewrite loadMore_allRows, Ha.
  - rewrite Hl, Ha. lia.
  - by rewrite Ha.
Qed.

End Pages.

(** Page count and [hasMore] after [n] calls of [loadMore], from a state
    that holds the first page of [total] records. *)
Lemma iter_loadMore_count n st0 total :
  length (allRows st0) = total ->
  length (data st0) = PAGE_SIZE `min` total ->
  hasMore st0 = (PAGE_SIZE <? total)%nat ->
  length (data (Nat.iter n loadMore st0)) = ((n + 1) * PAGE_SIZE) `min` total
  /\ hasMore (Nat.iter n loadMore st0) = ((n + 1) * PAGE_SIZE <? total)%nat.
Proof.
  intros Ha Hd Hh0.
  assert (Hle : length (data st0) <= length (allRows st0)) by lia.
  assert (Hh : hasMore st0 = (length (data st0) <? length (allRows st0))%nat).
  { rewrite Hh0, Hd, Ha. unfold PAGE_SIZE.
    destruct (Nat.ltb_spec 40 total).
    - symmetry. apply Nat.ltb_lt. lia.
    - symmetry. apply Nat.ltb_ge. lia. }
  destruct (iter_loadMore_length n st0 Hle) as [Hl _].
  assert (Hlen : length (data (Nat.iter n loadMore st0))
                 = ((n + 1) * PAGE_SIZE) `min` total).
  { rewrite Hl, Hd, Ha. unfold PAGE_SIZE. lia. }
  split; [exact Hlen|].
  rewrite (iter_loadMore_hasMore_exact n st0 Hle Hh), Hlen, Ha.
  unfold PAGE_SIZE.
  destruct (Nat.ltb_spec ((n + 1) * 40) total).
  - apply Nat.ltb_lt. lia.
  - apply Nat.ltb_ge. lia.
Qed.

(** What a run of [fetchData] that was not cancelled leaves when it resumes
    with a successful response, in whatever state the component is by then:
    it does not touch [isError]. *)
Lemma fetchData_resume_ok clock applyEdits status json st :
  ok status = true ->
  let mapped := map_mapRemoteToCustomer clock json in
  fetchData_resume clock applyEdits (Response status (BodyRows json)) false st
  = {| allRows := mapped;
       data := applyEdits (slice mapped 0 PAGE_SIZE);
       isLoading := false; isError := isError st;
       hasMore := (PAGE_SIZE <? length mapped)%nat;
       editCache := editCache st |}.
Proof. intros Hok. unfold fetchData_resume. rewrite Hok. reflexivity. Qed.

(** Once the page is as long as the full record set and [isLoading] is
    false, [loadMore] returns the state it was given. *)
Lemma loadMore_exhausted_eq st :
  length (allRows st) <= length (data st) ->
  isLoading st = false ->
  loadMore st = st.
Proof.
  intros Hle Hl. unfold loadMore. cbn beta zeta.
  change (data (setIsLoading true st)) with (data st).
  rewrite (proj2 (Nat.eqb_eq _ 0)).
  - destruct st as [a d l e h c]. cbn in *. by subst l.
  - rewrite length_slice. lia.
Qed.

(** X1. When a run of [fetchData] that was not cancelled resumes with a
    successful response, in whatever state the component is by then, and
    [n] calls of [loadMore] follow, the page has
    [min((n+1) * PAGE_SIZE, total)] rows, [hasMore] is true exactly when
    [(n+1) * PAGE_SIZE < total], and [isLoading] is false; [isError] is what
    it was when the run resumed (the success path and [loadMore] never
    write it). *)
Theorem page_count_after_fetch clock status json st n :
  ok status = true ->
  let st' := Nat.iter n loadMore
               (fetchData_resume clock (applyEdits (editCache st))
                  (Response status (BodyRows json)) false st) in
  length (data st') = ((n + 1) * PAGE_SIZE) `min` length json
  /\ hasMore st' = ((n + 1) * PAGE_SIZE <? length json)%nat
  /\ isLoading st' = false
  /\ isError st' = isError st.
Proof.
  intros Hok st'. unfold st'.
  set (st0 := fetchData_resume clock (applyEdits (editCache st))
                (Response status (BodyRows json)) false st).
  pose proof (fetchData_resume_ok clock (applyEdits (editCache st))
                status json st Hok) as H0.
  cbv zeta in H0. fold st0 in H0.
  destruct (iter_loadMore_count n st0 (length json)) as [Hl Hh].
  { rewrite H0. cbn. apply length_map_mapRemoteToCustomer. }
  { rewrite H0. cbn [data].
    rewrite length_applyEdits, length_slice, length_map_mapRemoteToCustomer.
    f_equal; lia. }
  { rewrite H0. cbn. by rewrite length_map_mapRemoteToCustomer. }
  split; [exact Hl|]. split; [exact Hh|]. split.
  - destruct n as [|n]; [by rewrite H0|].
    rewrite Nat.iter_succ. apply loadMore_flags.
  - rewrite iter_loadMore_isError. by rewrite H0.
Qed.

Lemma page_count_after_fetch_witness :
  let st := setIsError (Some "HTTP 500") (setIsLoading true (initialState NoItem)) in
  let st' := Nat.iter 1 loadMore
               (fetchData_resume (frozen 0) (applyEdits (editCache st))
                  (Response 200 (BodyRows (bare_json 50))) false st) in
  ok 200 = true /\ length (data st') = 50 /\ hasMore st' = false
  /\ isError st' = Some "HTTP 500".
Proof.
  intros st st'. split; [reflexivity|].
  destruct (page_count_after_fetch (frozen 0) 200 (bare_json 50) st 1)
    as (Hl & Hh & _ & He); [reflexivity|].
  split; [exact Hl|]. split; [exact Hh | exact He].
Defined.

(** X2. After a successful fetch and [n] calls of [loadMore], the visible
    page is the edit cache applied to the first [(n+1) * PAGE_SIZE] mapped
    records, in the order of the response; the full record set is the mapped
    response and the edit cache is untouched. *)
Theorem page_is_prefix_of_response clock status json st n :
  ok status = true ->
  let mapped := map_mapRemoteToCustomer clock json in
  let st' := Nat.iter n loadMore
               (fetchData clock (Response status (BodyRows json)) false st) in
  data st' = applyEdits (editCache st) (take ((n + 1) * PAGE_SIZE) mapped)
  /\ allRows st' = mapped
  /\ editCache st' = editCache st.
Proof.
  intros Hok mapped st'. unfold st'.
  set (st0 := fetchData clock (Response status (BodyRows json)) false st).
  assert (H0 : st0 = _) by (unfold st0; apply (fetchData_ok clock status json st Hok)).
  cbv zeta in H0.
  assert (Hc : editCache st0 = editCache st) by (by rewrite H0).
  assert (Ha : allRows st0 = mapped) by (by rewrite H0).
  destruct (iter_loadMore_prefix n st0 PAGE_SIZE) as (Hd & Hc' & Ha').
  { rewrite H0. cbn [data editCache allRows]. unfold slice.
    by rewrite Nat.sub_0_r, drop_0. }
  rewrite Hd, Hc', Ha', Hc, Ha. split; [|done].
  f_equal. f_equal. lia.
Qed.

Lemma page_is_prefix_of_response_witness :
  ok 200 = true
  /\ data (Nat.iter 1 loadMore
             (fetchData (frozen 0) (Response 200 (BodyRows (bare_json 50))) false
                (initialState (Parsed bio_cache))))
     = applyEdits bio_cache
         (take 80 (map_mapRemoteToCustomer (frozen 0) (bare_json 50))).
Proof.
  split; [reflexivity|].
  exact (proj1 (page_is_prefix_of_response (frozen 0) 200 (bare_json 50)
                  (initialState (Parsed bio_cache)) 1 eq_refl)).
Defined.

(** X3. When a run of [fetchData] that was not cancelled resumes with a
    successful response (a run that is not cancelled closes over the current
    edit cache) and enough [loadMore] calls follow
    ([total <= (n+1) * PAGE_SIZE]), the page shows every record of the
    response exactly once and in order, with the edit cache applied;
    [hasMore] is false, and the observer callback and a further [loadMore]
    return the state unchanged. "End of results" is rendered exactly when
    the response was not empty and no error is set. *)
Theorem all_records_shown clock status json st n :
  ok status = true ->
  length json <= (n + 1) * PAGE_SIZE ->
  let st' := Nat.iter n loadMore
               (fetchData_resume clock (applyEdits (editCache st))
                  (Response status (BodyRows json)) false st) in
  data st' = applyEdits (editCache st) (map_mapRemoteToCustomer clock json)
  /\ allRows st' = map_mapRemoteToCustomer clock json
  /\ hasMore st' = false
  /\ (forall isIntersecting, observe isIntersecting st' = st')
  /\ loadMore st' = st'
  /\ shows_end_of_results st'
     = negb (Js.truthy (isError st)) && (0 <? length json)%nat.
Proof.
  intros Hok Hle st'. unfold st'.
  set (st0 := fetchData_resume clock (applyEdits (editCache st))
                (Response status (BodyRows json)) false st).
  pose proof (fetchData_resume_ok clock (applyEdits (editCache st))
                status json st Hok) as H0.
  cbv zeta in H0. fold st0 in H0.
  set (mapped := map_mapRemoteToCustomer clock json) in *.
  assert (Hm : length mapped = length json)
    by apply length_map_mapRemoteToCustomer.
  destruct (iter_loadMore_count n st0 (length json)) as [Hl Hh].
  { by rewrite H0. }
  { rewrite H0. cbn [data]. rewrite length_applyEdits, length_slice, Hm.
    f_equal; lia. }
  { rewrite H0. cbn. by rewrite Hm. }
  destruct (iter_loadMore_prefix n st0 PAGE_SIZE) as (Hd & Hc & Ha).
  { rewrite H0. cbn [data editCache allRows]. unfold slice.
    by rewrite Nat.sub_0_r, drop_0. }
  assert (Hfalse : hasMore (Nat.iter n loadMore st0) = false).
  { rewrite Hh. apply Nat.ltb_ge. exact Hle. }
  assert (Ha' : allRows (Nat.iter n loadMore st0) = mapped) by (by rewrite Ha, H0).
  assert (Hload : isLoading (Nat.iter n loadMore st0) = false).
  { destruct n as [|n]; [by rewrite H0|].
    rewrite Nat.iter_succ. apply loadMore_flags. }
  split.
  { rewrite Hd, H0. cbn [editCache allRows]. rewrite take_ge; [done|lia]. }
  split; [exact Ha'|]. split; [exact Hfalse|]. split.
  { intros b. unfold observe, may_trigger. rewrite Hfalse. cbn.
    by rewrite andb_false_r. }
  split.
  { apply loadMore_exhausted_eq; [|exact Hload]. rewrite Hl, Ha', Hm. lia. }
  unfold shows_end_of_results.
  rewrite iter_loadMore_isError, Hfalse, Ha', Hm. rewrite H0.
  cbn [isError negb]. by rewrite andb_true_r.
Qed.

Lemma all_records_shown_witness :
  let st := setIsError (Some "HTTP 500") (setIsLoading true (initialState NoItem)) in
  let st' := Nat.iter 1 loadMore
               (fetchData_resume (frozen 0) (applyEdits (editCache st))
                  (Response 200 (BodyRows (bare_json 50))) false st) in
  length (bare_json 50) <= (1 + 1) * PAGE_SIZE
  /\ data st' = applyEdits ∅ (map_mapRemoteToCustomer (frozen 0) (bare_json 50))
  /\ loadMore st' = st'
  /\ shows_end_of_results st' = false.
Proof.
  intros st st'. split; [vm_compute; lia|].
  destruct (all_records_shown (frozen 0) 200 (bare_json 50) st 1)
    as (Hd & _ & _ & _ & Hl & He); [reflexivity | vm_compute; lia |].
  split; [exact Hd|]. split; [exact Hl | exact He].
Defined.

(** ** The edit cache and the visible page *)

Section CacheAndPage.

Implicit Types (st : State) (rows : list CustomerRow) (cache : EditCache)
  (r e : gmap string Val).

Lemma has_string_id_spec r :
  has_string_id r = true <-> exists s, r !! "id" = Some (VStr s).
Proof.
  unfold has_string_id. split.
  - destruct (r !! "id") as [[s|b]|]; try discriminate. by exists s.
  - by intros [s ->].
Qed.

Lemma no_id_default cache k : no_id cache -> default ∅ (cache !! k) !! "id" = None.
Proof.
  intros Hno. destruct (cache !! k) as [e|] eqn:He; cbn; [|done].
  exact (Hno _ _ He).
Qed.

(** One row: editing the visible copy in place gives the row that the
    updated cache produces from the unedited one. *)
Lemma updateCell_row_agrees cache rowId key value r :
  no_id cache -> has_string_id r = true ->
  let cache' := <[rowId := <[key := VStr value]> (default ∅ (cache !! rowId))]> cache in
  let shown := spread r (default ∅ (cache !! property_key (r !! "id"))) in
  (if bool_decide (shown !! "id" = Some (VStr rowId))
   then <[key := VStr value]> shown else shown)
  = spread r (default ∅ (cache' !! property_key (r !! "id"))).
Proof.
  intros Hno [s Hs]%has_string_id_spec cache' shown.
  assert (Hid : shown !! "id" = Some (VStr s)).
  { unfold shown. rewrite spread_id_unbound; [done | by apply no_id_default]. }
  rewrite Hid. unfold shown, cache'. rewrite Hs. cbn [property_key].
  destruct (decide (s = rowId)) as [->|Hne].
  - rewrite bool_decide_eq_true_2 by done. rewrite lookup_insert_eq. cbn.
    unfold spread. by rewrite insert_union_l.
  - rewrite bool_decide_eq_false_2 by congruence.
    by rewrite lookup_insert_ne.
Qed.

(** The mapped rows have string ids. *)
Lemma mapped_has_string_id clock json :
  Forall (fun r => has_string_id r = true) (map_mapRemoteToCustomer clock json).
Proof.
  apply Forall_lookup. intros i r Hi. unfold map_mapRemoteToCustomer in Hi.
  rewrite list_lookup_imap in Hi.
  destruct (json !! i) as [item|]; [|done]. cbn in Hi. injection Hi as <-.
  apply has_string_id_spec. eexists. apply mapRemoteToCustomer_id.
Qed.

(** What a run of [fetchData] can do to the rows: either it installs the
    first page of the mapped response, or it leaves rows, [hasMore] and the
    cache alone. *)
Lemma fetchData_cases clock res cancelled st :
  (exists status json, res = Response status (BodyRows json) /\ ok status = true
     /\ cancelled = false)
  \/ (data (fetchData clock res cancelled st) = data st
      /\ allRows (fetchData clock res cancelled st) = allRows st
      /\ hasMore (fetchData clock res cancelled st) = hasMore st
      /\ editCache (fetchData clock res cancelled st) = editCache st).
Proof.
  destruct res as [m|status [json|m]]; unfold fetchData, fetchData_resume.
  - right. by destruct cancelled.
  - destruct (ok status) eqn:Hok; cbn [negb].
    + destruct cancelled; [right; done|left; eauto].
    + right. by destruct cancelled.
  - right. destruct (ok status); by destruct cancelled.
Qed.

End CacheAndPage.

(** X4. In the rows [applyEdits] returns, a row with a cache entry has every
    field of the entry (the cache wins) and keeps its own value for every
    field the entry does not bind. *)
Theorem applyEdits_overlay_wins (cache : EditCache) (rows : list CustomerRow) i
    (r e : gmap string Val) :
  rows !! i = Some r ->
  cache !! property_key (r !! "id") = Some e ->
  exists r' : gmap string Val,
    applyEdits cache rows !! i = Some r'
    /\ (forall k v, e !! k = Some v -> r' !! k = Some v)
    /\ (forall k, e !! k = None -> r' !! k = r !! k).
Proof.
  intros Hi He. exists (spread r e).
  rewrite applyEdits_lookup, Hi. cbn. rewrite He. cbn.
  split; [done|]. unfold spread. split.
  - intros k v Hk. by apply lookup_union_Some_l.
  - intros k Hk. by rewrite lookup_union_r.
Qed.

Lemma applyEdits_overlay_wins_witness :
  exists r' : gmap string Val,
    applyEdits bio_cache [customer "row-3" ""] !! 0 = Some r'
    /\ r' !! "bio" = Some (VStr "hi") /\ r' !! "name" = Some (VStr "Ada").
Proof.
  destruct (applyEdits_overlay_wins bio_cache [customer "row-3" ""] 0
              (customer "row-3" "") {[ "bio" := VStr "hi" ]})
    as (r' & Hr & Hwin & Hkeep); [reflexivity | compute_done |].
  exists r'. split; [exact Hr|]. split.
  - apply Hwin. compute_done.
  - rewrite Hkeep by compute_done. compute_done.
Defined.

(** X5. When no cache entry binds [id], [applyEdits] keeps the number, the
    order and the ids of the rows. *)
Theorem applyEdits_keeps_ids (cache : EditCache) (rows : list CustomerRow) :
  no_id cache ->
  ids (applyEdits cache rows) = ids rows
  /\ length (applyEdits cache rows) = length rows.
Proof.
  intros Hno. split; [|apply length_applyEdits].
  unfold ids, applyEdits. rewrite map_map. apply map_ext. intros r.
  apply spread_id_unbound. by apply no_id_default.
Qed.

Lemma applyEdits_keeps_ids_witness :
  no_id bio_cache
  /\ ids (applyEdits bio_cache [customer "row-2" ""; customer "row-3" ""])
     = [Some (VStr "row-2"); Some (VStr "row-3")].
Proof.
  assert (Hno : no_id bio_cache).
  { unfold no_id, bio_cache. apply map_Forall_singleton. compute_done. }
  split; [exact Hno|].
  exact (proj1 (applyEdits_keeps_ids bio_cache
                  [customer "row-2" ""; customer "row-3" ""] Hno)).
Defined.

Lemma updateCell_page_agrees rowId key value st (rows : list CustomerRow) :
  no_id (editCache st) ->
  Forall (fun r => has_string_id r = true) rows ->
  data st = applyEdits (editCache st) rows ->
  data (updateCell rowId key value st)
  = applyEdits (editCache (updateCell rowId key value st)) rows.
Proof.
  intros Hno Hids Hd. rewrite updateCell_data, updateCell_editCache, Hd.
  unfold applyEdits. rewrite map_map. apply map_ext_in. intros r Hr.
  apply (updateCell_row_agrees (editCache st) rowId key value r Hno).
  rewrite Forall_forall in Hids. apply Hids. by apply list_elem_of_In.
Qed.

(** X6. [updateCell] edits the visible rows in place and the cache
    separately, and the two agree: when the page is the cache applied to
    rows with string ids (and no entry binds [id]), the page after
    [updateCell] is the updated cache applied to the same rows. *)
Theorem updateCell_agrees_with_cache rowId key value st (rows : list CustomerRow) :
  no_id (editCache st) ->
  Forall (fun r => has_string_id r = true) rows ->
  data st = applyEdits (editCache st) rows ->
  data (updateCell rowId key value st)
  = applyEdits (editCache (updateCell rowId key value st)) rows.
Proof.
  intros Hno Hids Hd. rewrite updateCell_data, updateCell_editCache, Hd.
  unfold applyEdits. rewrite map_map. apply map_ext_in. intros r Hr.
  apply (updateCell_row_agrees (editCache st) rowId key value r Hno).
  rewrite Forall_forall in Hids. apply Hids. by apply list_elem_of_In.
Qed.

Lemma updateCell_agrees_with_cache_witness :
  let st := setData [customer "row-3" ""] (initialState NoItem) in
  data (updateCell "row-3" "bio" "hi" st)
  = applyEdits (editCache (updateCell "row-3" "bio" "hi" st)) [customer "row-3" ""].
Proof.
  intros st.
  apply (updateCell_agrees_with_cache "row-3" "bio" "hi" st [customer "row-3" ""]).
  - unfold no_id. cbn. apply map_Forall_empty.
  - repeat constructor.
  - compute_done.
Defined.

(** ** Runs of the component *)

Section Runs.

Implicit Types (st : State) (ev : Event) (evs : list Event).

Lemma consistent_initial stored :
  no_id (initialEditCache stored) -> consistent (initialState stored).
Proof. intros Hno. split; [done|]. split; [constructor|done]. Qed.

Lemma consistent_length st :
  consistent st -> length (data st) <= length (allRows st).
Proof.
  intros (_ & _ & Hd).
  rewrite Hd, length_applyEdits, length_take. lia.
Qed.

Lemma consistent_fetchData clock res cancelled st :
  consistent st -> consistent (fetchData clock res cancelled st).
Proof.
  intros (Hno & Hids & Hd).
  destruct (fetchData_cases clock res cancelled st)
    as [(status & json & -> & Hok & ->)|(Hd' & Ha' & _ & Hc')].
  - rewrite (fetchData_ok clock status json st Hok). cbv zeta.
    split; [done|]. split; [apply mapped_has_string_id|].
    cbn [data editCache allRows]. f_equal.
    rewrite length_applyEdits, length_slice, Nat.sub_0_r.
    unfold slice. rewrite !Nat.sub_0_r, drop_0.
    by rewrite take_min_length.
  - unfold consistent. by rewrite Hd', Ha', Hc'.
Qed.

Lemma consistent_loadMore st : consistent st -> consistent (loadMore st).
Proof.
  intros Hc. pose proof (consistent_length st Hc) as Hle.
  destruct Hc as (Hno & Hids & Hd).
  unfold consistent. rewrite loadMore_editCache, loadMore_allRows.
  split; [done|]. split; [done|].
  rewrite (loadMore_prefix st (length (data st)) Hd), length_applyEdits.
  f_equal. rewrite length_take. by rewrite take_min_length.
Qed.

Lemma consistent_updateCell rowId key value st :
  key <> "id" -> consistent st -> consistent (updateCell rowId key value st).
Proof.
  intros Hkey (Hno & Hids & Hd). split; [by apply updateCell_no_id|].
  split; [done|].
  assert (Hl : length (data (updateCell rowId key value st)) = length (data st))
    by (rewrite updateCell_data; apply length_map).
  rewrite Hl. change (allRows (updateCell rowId key value st)) with (allRows st).
  apply updateCell_page_agrees; [done | by apply Forall_take | done].
Qed.

End Runs.

(** X7. Whatever the order of fetches (successful, failed or cancelled),
    [loadMore] calls and cell edits that do not write [id], the visible page
    stays the current edit cache applied to a prefix of the full record set:
    every visible row shows all edits made so far, whether it was loaded
    before or after them. (Runs with [addNewRow] are excluded.) *)
Theorem page_consistent_with_cache stored (evs : list Event) :
  no_id (initialEditCache stored) ->
  Forall (fun ev => editor_event ev = true) evs ->
  let st := run evs (initialState stored) in
  data st = applyEdits (editCache st) (take (length (data st)) (allRows st))
  /\ length (data st) <= length (allRows st)
  /\ no_id (editCache st).
Proof.
  intros Hno Hevs st.
  assert (Hc : consistent st).
  { unfold st, run.
    pose proof (consistent_initial stored Hno) as Hinit.
    revert Hinit. generalize (initialState stored).
    induction Hevs as [|ev evs Hev _ IH]; intros st0 Hst0; [done|].
    cbn [foldl]. apply IH.
    destruct ev as [clock res cancelled| |rowId key value|now now'];
      cbn [step].
    - by apply consistent_fetchData.
    - by apply consistent_loadMore.
    - apply consistent_updateCell; [|done].
      cbn in Hev. apply negb_true_iff, String.eqb_neq in Hev. exact Hev.
    - discriminate. }
  split; [apply Hc|]. split; [by apply consistent_length | apply Hc].
Qed.

Lemma page_consistent_with_cache_witness :
  let st := run [Fetch (frozen 0) (Response 200 (BodyRows (bare_json 50))) false;
                 UpdateCell "45" "bio" "hi"; LoadMore]
                (initialState NoItem) in
  data st = applyEdits (editCache st) (take (length (data st)) (allRows st)).
Proof.
  intros st.
  apply (page_consistent_with_cache NoItem
           [Fetch (frozen 0) (Response 200 (BodyRows (bare_json 50))) false;
            UpdateCell "45" "bio" "hi"; LoadMore]).
  - unfold no_id. cbn. apply map_Forall_empty.
  - repeat constructor.
Defined.

(** X8. The fetch that an edit triggers resets the window: after
    [updateCell] and a successful run of [fetchData], the page is again the
    first [PAGE_SIZE] mapped records with the updated cache applied, however
    many pages and new rows were visible before. *)
Theorem edit_and_refetch_resets clock status json rowId key value st :
  ok status = true ->
  let st' := edit_and_refetch clock (Response status (BodyRows json))
               rowId key value st in
  data st'
  = applyEdits (editCache (updateCell rowId key value st))
      (take PAGE_SIZE (map_mapRemoteToCustomer clock json))
  /\ length (data st') = PAGE_SIZE `min` length json
  /\ hasMore st' = (PAGE_SIZE <? length json)%nat
  /\ editCache st' = editCache (updateCell rowId key value st).
Proof.
  intros Hok st'. unfold st', edit_and_refetch.
  rewrite (fetchData_ok clock status json _ Hok). cbv zeta.
  cbn [data hasMore editCache]. unfold slice. rewrite Nat.sub_0_r, drop_0.
  split; [done|]. split; [|by rewrite length_map_mapRemoteToCustomer].
  by rewrite length_applyEdits, length_take, length_map_mapRemoteToCustomer.
Qed.

Lemma edit_and_refetch_resets_witness :
  let st := addNewRow 5 5
              (loadMore (fetchData (frozen 0) (Response 200 (BodyRows (bare_json 100)))
                           false (initialState NoItem))) in
  length (data st) = 81
  /\ length (data (edit_and_refetch (frozen 0) (Response 200 (BodyRows (bare_json 100)))
                     "new-5" "name" "Ada" st)) = 40.
Proof.
  intros st. split; [vm_compute; reflexivity|].
  destruct (edit_and_refetch_resets (frozen 0) 200 (bare_json 100)
              "new-5" "name" "Ada" st) as (_ & Hl & _); [reflexivity|].
  exact Hl.
Defined.

(** X9. Edits of one cell: the last write wins. For a key other than [id],
    two [updateCell] calls on the same row and key leave the state that the
    second alone leaves. *)
Theorem updateCell_last_write_wins rowId key v1 v2 st :
  key <> "id" ->
  updateCell rowId key v2 (updateCell rowId key v1 st) = updateCell rowId key v2 st.
Proof.
  intros Hkey. unfold updateCell, setData, setEditCache. cbn.
  f_equal.
  - rewrite map_map. apply map_ext. intros r.
    destruct (decide (r !! "id" = Some (VStr rowId))) as [H|H].
    + rewrite !(bool_decide_eq_true_2 _ H).
      rewrite bool_decide_eq_true_2 by (by rewrite lookup_insert_ne).
      apply insert_insert_eq.
    + by rewrite !(bool_decide_eq_false_2 _ H).
  - rewrite lookup_insert_eq. cbn. by rewrite !insert_insert_eq.
Qed.

Lemma updateCell_last_write_wins_witness :
  let st := setData [customer "row-3" ""] (initialState NoItem) in
  updateCell "row-3" "bio" "b" (updateCell "row-3" "bio" "a" st)
  = updateCell "row-3" "bio" "b" st.
Proof.
  intros st. apply (updateCell_last_write_wins "row-3" "bio" "a" "b" st).
  discriminate.
Defined.

(** X10. Edits of different cells commute: for keys other than [id], two
    [updateCell] calls on different rows, or on different keys of one row,
    give the same state in either order. *)
Theorem updateCell_commutes r1 k1 v1 r2 k2 v2 st :
  k1 <> "id" -> k2 <> "id" -> r1 <> r2 \/ k1 <> k2 ->
  updateCell r1 k1 v1 (updateCell r2 k2 v2 st)
  = updateCell r2 k2 v2 (updateCell r1 k1 v1 st).
Proof.
  intros Hk1 Hk2 Hne. unfold updateCell, setData, setEditCache. cbn.
  f_equal.
  - rewrite !map_map. apply map_ext. intros r.
    destruct (decide (r !! "id" = Some (VStr r1))) as [H1|H1];
      destruct (decide (r !! "id" = Some (VStr r2))) as [H2|H2];
      repeat first
        [ rewrite (bool_decide_eq_true_2 _ H1)
        | rewrite (bool_decide_eq_false_2 _ H1)
        | rewrite (bool_decide_eq_true_2 _ H2)
        | rewrite (bool_decide_eq_false_2 _ H2)
        | rewrite lookup_insert_ne by done ];
      try done.
    assert (r1 = r2) by congruence. subst r2.
    destruct Hne as [Hne|Hne]; [done|]. by apply insert_insert_ne.
  - destruct (decide (r1 = r2)) as [->|Hr].
    + destruct Hne as [Hne|Hne]; [done|].
      rewrite !lookup_insert_eq. cbn. rewrite !insert_insert_eq.
      f_equal. by apply insert_insert_ne.
    + rewrite !lookup_insert_ne by done. by apply insert_insert_ne.
Qed.

Lemma updateCell_commutes_witness :
  let st := setData [customer "row-2" ""; customer "row-3" ""] (initialState NoItem) in
  updateCell "row-2" "bio" "a" (updateCell "row-3" "state" "NY" st)
  = updateCell "row-3" "state" "NY" (updateCell "row-2" "bio" "a" st).
Proof.
  intros st.
  apply (updateCell_commutes "row-2" "bio" "a" "row-3" "state" "NY" st).
  - discriminate.
  - discriminate.
  - left. discriminate.
Defined.


(** ** Failed and cancelled fetches *)



(** ** Runs without a fetch *)

(** X12. Between two fetches the visible page never shrinks and never loses
    a position: [loadMore] appends, [addNewRow] prepends, [updateCell] keeps
    the length. *)
Theorem page_never_shrinks (evs : list Event) st :
  Forall (fun ev => not_fetch ev = true) evs ->
  length (data st) <= length (data (run evs st)).
Proof.
  intros Hevs. revert st. unfold run.
  induction Hevs as [|ev evs Hev _ IH]; intros st; [done|].
  cbn [foldl]. etrans; [|apply IH].
  destruct ev as [clock res cancelled| |rowId key value|now now']; cbn [step].
  - discriminate.
  - rewrite loadMore_length. lia.
  - rewrite updateCell_data, length_map. done.
  - cbn. lia.
Qed.

Lemma page_never_shrinks_witness :
  let st := fetchData (frozen 0) (Response 200 (BodyRows (bare_json 50))) false
              (initialState NoItem) in
  length (data st) <= length (data (run [AddNewRow 5 5; LoadMore] st)).
Proof.
  intros st. apply (page_never_shrinks [AddNewRow 5 5; LoadMore] st).
  repeat constructor.
Defined.

(** ** Mapped rows and new rows *)

Section Rows.

Lemma pretty_N_go_nonempty (x : N) s : s <> "" -> pretty_N_go x s <> "".
Proof.
  revert s. induction (N.lt_wf_0 x) as [x _ IH]; intros s Hs.
  assert (x = 0 \/ 0 < x)%N as [->|Hpos] by lia.
  - by rewrite pretty_N_go_0.
  - rewrite pretty_N_go_step by done. apply IH; [by apply N.div_lt|done].
Qed.

Lemma String_nat_nonempty n : Js.String_nat n <> "".
Proof.
  unfold Js.String_nat, pretty, pretty_nat, pretty, pretty_N.
  case_decide; [done|].
  rewrite pretty_N_go_step by lia. by apply pretty_N_go_nonempty.
Qed.

Lemma or_str_nonempty o d : d <> "" -> Js.or_str o d <> "".
Proof. intros Hd. by destruct o as [[|??]|]. Qed.

Lemma or_str_falsy o d : Js.truthy o = false -> Js.or_str o d = d.
Proof. by destruct o as [[|??]|]. Qed.

Lemma at_index_elem arr i : i < length arr -> at_index arr i ∈ arr.
Proof.
  intros Hi. unfold at_index.
  destruct (lookup_lt_is_Some_2 arr i Hi) as [x Hx]. rewrite Hx. cbn.
  by eapply list_elem_of_lookup_2.
Qed.

Lemma mapRemoteToCustomer_state now item idx :
  mapRemoteToCustomer now item idx !! "state"
  = Some (VStr (at_index RANDOM_STATES (idx mod length RANDOM_STATES))).
Proof. unfold mapRemoteToCustomer. cbn zeta. by simplify_map_eq. Qed.

Lemma mapRemoteToCustomer_version now item idx :
  mapRemoteToCustomer now item idx !! "version"
  = Some (VStr (at_index RANDOM_VERSIONS (idx mod length RANDOM_VERSIONS))).
Proof. unfold mapRemoteToCustomer. cbn zeta. by simplify_map_eq. Qed.

Lemma no_remote_id_id now item idx :
  no_remote_id item = true ->
  mapRemoteToCustomer now item idx !! "id" = Some (VStr (Js.String_nat idx)).
Proof.
  intros H. rewrite mapRemoteToCustomer_id. do 2 f_equal.
  unfold no_remote_id in H.
  apply andb_prop in H as [[Hg Hi]%andb_prop H_].
  apply negb_true_iff in Hg, Hi, H_.
  apply or_str_falsy. unfold Js.or. by rewrite Hg, Hi.
Qed.

End Rows.

(** X13. Every mapped row has exactly the seven properties [id], [name],
    [bio], [language], [state], [createdDate] and [version], and no [isNew];
    its state is one of [RANDOM_STATES], its version one of
    [RANDOM_VERSIONS], and its id is never the empty string. *)
Theorem mapped_row_shape now item idx :
  let r := mapRemoteToCustomer now item idx in
  dom r = list_to_set ["id"; "name"; "bio"; "language"; "state"; "createdDate";
                       "version"]
  /\ r !! "isNew" = None
  /\ (exists s, r !! "state" = Some (VStr s) /\ s ∈ RANDOM_STATES)
  /\ (exists s, r !! "version" = Some (VStr s) /\ s ∈ RANDOM_VERSIONS)
  /\ is_Some (r !! "id") /\ r !! "id" <> Some (VStr "").
Proof.
  intros r. split; [|split; [|split; [|split; [|split]]]].
  - unfold r, mapRemoteToCustomer. cbn zeta.
    rewrite !dom_insert_L. cbn. set_solver.
  - unfold r, mapRemoteToCustomer. cbn zeta. by simplify_map_eq.
  - eexists. split; [apply mapRemoteToCustomer_state|].
    apply at_index_elem. change (length RANDOM_STATES) with 10.
    apply Nat.mod_upper_bound. lia.
  - eexists. split; [apply mapRemoteToCustomer_version|].
    apply at_index_elem. change (length RANDOM_VERSIONS) with 4.
    apply Nat.mod_upper_bound. lia.
  - unfold r. by rewrite mapRemoteToCustomer_id.
  - unfold r. rewrite mapRemoteToCustomer_id. intros [= Hid].
    by apply (or_str_nonempty _ _ (String_nat_nonempty idx)) in Hid.
Qed.

(** X14. When no record of the response carries a truthy [guid], [id] or
    [_id], the mapped ids are the decimal positions "0", "1", ... in order,
    and no two rows share an id. *)
Theorem mapped_ids_by_position clock (json : list RemoteRow) :
  Forall (fun item => no_remote_id item = true) json ->
  ids (map_mapRemoteToCustomer clock json)
  = map (fun idx => Some (VStr (Js.String_nat idx))) (seq 0 (length json))
  /\ NoDup (ids (map_mapRemoteToCustomer clock json)).
Proof.
  intros Hjson.
  assert (Hids : ids (map_mapRemoteToCustomer clock json)
    = map (fun idx => Some (VStr (Js.String_nat idx))) (seq 0 (length json))).
  { apply list_eq. intros i. unfold ids, map_mapRemoteToCustomer.
    rewrite !list_lookup_fmap, list_lookup_imap.
    destruct (json !! i) as [item|] eqn:Hi; cbn.
    - rewrite lookup_seq_lt by (by eapply lookup_lt_Some). cbn. f_equal.
      apply no_remote_id_id. rewrite Forall_lookup in Hjson. by eapply Hjson.
    - apply lookup_ge_None in Hi. by rewrite lookup_seq_ge. }
  split; [exact Hids|]. rewrite Hids.
  apply NoDup_fmap_2; [|apply NoDup_seq].
  intros i j [= Hij]. by apply (inj pretty) in Hij.
Qed.

Lemma mapped_ids_by_position_witness :
  ids (map_mapRemoteToCustomer (frozen 0) (bare_json 3))
  = [Some (VStr "0"); Some (VStr "1"); Some (VStr "2")].
Proof.
  refine (proj1 (mapped_ids_by_position (frozen 0) (bare_json 3) _)).
  repeat constructor.
Defined.

(** X15. The id of a new row is "new-" followed by the clock value: two rows
    added at different clock values have different ids, two rows added at the
    same clock value have the same id, and an edit of that id then changes
    both rows. *)
Theorem new_row_ids now1 now1' now2 now2' st :
  let st2 := addNewRow now2 now2' (addNewRow now1 now1' st) in
  ids (data st2)
  = Some (VStr ("new-" +:+ Js.String_Z now2))
    :: Some (VStr ("new-" +:+ Js.String_Z now1)) :: ids (data st)
  /\ ("new-" +:+ Js.String_Z now2 = "new-" +:+ Js.String_Z now1 <-> now2 = now1)
  /\ (now2 = now1 -> forall key value i, i < 2 ->
        exists r : gmap string Val,
          data (updateCell ("new-" +:+ Js.String_Z now1) key value st2) !! i = Some r
          /\ r !! key = Some (VStr value)).
Proof.
  intros st2. split; [|split].
  - unfold st2, addNewRow. cbn [data setData ids map].
    by rewrite !lookup_insert_eq.
  - split; [|by intros ->].
    cbn. intros [= H]. unfold Js.String_Z in H.
    change ("" +:+ pretty now2) with (pretty now2) in H.
    change ("" +:+ pretty now1) with (pretty now1) in H.
    by apply (inj pretty) in H.
  - intros -> key value i Hi. rewrite updateCell_data.
    unfold st2, addNewRow. cbn [data setData map].
    destruct i as [|[|i]]; [| |lia]; cbn [lookup list_lookup].
    + eexists. split; [reflexivity|].
      rewrite bool_decide_eq_true_2 by (by simplify_map_eq).
      apply lookup_insert_eq.
    + eexists. split; [reflexivity|].
      rewrite bool_decide_eq_true_2 by (by simplify_map_eq).
      apply lookup_insert_eq.
Qed.

Lemma new_row_ids_witness :
  exists r : gmap string Val,
    data (updateCell "new-5" "name" "Ada"
            (addNewRow 5 6 (addNewRow 5 5 (initialState NoItem)))) !! 1 = Some r
    /\ r !! "name" = Some (VStr "Ada").
Proof.
  destruct (new_row_ids 5 5 5 6 (initialState NoItem)) as (_ & _ & Hboth).
  exact (Hboth eq_refl "name" "Ada" 1 (le_n 2)).
Defined.

(** X16. The state the mapper gives a row always passes the validator of the
    state column. *)
Theorem mapped_state_is_valid now item idx :
  exists s, mapRemoteToCustomer now item idx !! "state" = Some (VStr s)
            /\ validate_state s = true.
Proof.
  eexists. split; [apply mapRemoteToCustomer_state|].
  assert (Hall : Forall (fun s => validate_state s = true) RANDOM_STATES)
    by (repeat constructor).
  rewrite Forall_forall in Hall. apply Hall, at_index_elem.
  change (length RANDOM_STATES) with 10. apply Nat.mod_upper_bound. lia.
Qed.

Lemma mapped_row_shape_witness :
  mapRemoteToCustomer 0 bare 7 !! "id" <> Some (VStr "")
  /\ exists s, mapRemoteToCustomer 0 bare 7 !! "state" = Some (VStr s)
               /\ s ∈ RANDOM_STATES.
Proof.
  destruct (mapped_row_shape 0 bare 7) as (_ & _ & Hstate & _ & _ & Hid).
  split; [exact Hid | exact Hstate].
Defined.

(** ** Validators and cells *)

Section Validators.

Lemma trimStart_empty s :
  Js.trimStart s = "" <-> Forall (fun c => Js.is_white_space c = true) (chars s).
Proof.
  induction s as [|c s IH]; cbn; [by split; [constructor|]|].
  destruct (Js.is_white_space c) eqn:Hc.
  - rewrite IH. split; [by constructor|by inversion 1].
  - split; [done|]. inversion 1; congruence.
Qed.

Lemma trimStart_head s c t :
  Js.trimStart s = String c t -> Js.is_white_space c = false.
Proof.
  induction s as [|c' s IH]; cbn; [done|].
  destruct (Js.is_white_space c') eqn:Hc; [done|]. by intros [= <- _].
Qed.

Lemma trimEnd_empty s :
  Js.trimEnd s = "" <-> Forall (fun c => Js.is_white_space c = true) (chars s).
Proof.
  induction s as [|c s IH]; cbn; [by split; [constructor|]|].
  destruct (Js.trimEnd s) as [|c' t] eqn:Ht.
  - destruct (Js.is_white_space c) eqn:Hc.
    + split; [intros _; constructor; [done|by apply IH]|done].
    + split; [done|]. inversion 1; congruence.
  - split; [done|]. inversion 1 as [|?? _ Hs]; subst.
    apply IH in Hs. done.
Qed.

Lemma trim_empty s :
  Js.trim s = "" <-> Forall (fun c => Js.is_white_space c = true) (chars s).
Proof.
  unfold Js.trim. rewrite trimEnd_empty. split.
  - intros Hall. apply trimStart_empty.
    destruct (Js.trimStart s) as [|c t] eqn:Hs; [done|].
    apply trimStart_head in Hs. inversion Hall; congruence.
  - intros Hall. apply trimStart_empty in Hall. rewrite Hall. constructor.
Qed.

End Validators.

(** X17. The validators of the name and language columns accept a value
    exactly when it contains a character that is not white space; a value
    of white space only, or the empty value, is refused. *)
Theorem validate_name_spec v :
  (validate_name v = true
     <-> Exists (fun c => Js.is_white_space c = false) (chars v))
  /\ validate_language v = validate_name v.
Proof.
  split; [|reflexivity]. unfold validate_name.
  rewrite Nat.ltb_lt. split.
  - intros Hlen.
    destruct (decide (Forall (fun c => Js.is_white_space c = true) (chars v)))
      as [Hall|Hex].
    + apply trim_empty in Hall. rewrite Hall in Hlen. cbn in Hlen. lia.
    + apply not_Forall_Exists in Hex; [|apply _].
      eapply Exists_impl; [exact Hex|]. cbn. intros c Hc.
      by destruct (Js.is_white_space c).
  - intros Hex. destruct (Js.trim v) eqn:Ht; [|cbn; lia].
    apply trim_empty in Ht. rewrite Forall_forall in Ht.
    apply Exists_exists in Hex as (c & Hin & Hc).
    rewrite (Ht c Hin) in Hc. done.
Qed.

(** X18. A commit that the column accepts, on a visible row of the
    [TableEditor]: the cell returns to the display mode without an error,
    the row at the same position now holds the committed value in the
    column (so the cell keeps it when it follows the row again), and the
    cache entry of the row binds the column to it. *)
Theorem accepted_commit_shows_value rowId (p : EditableTextCell.Props)
    (c : EditableTextCell.Cell) st i (r : CustomerRow) :
  match EditableTextCell.validate p with
  | Some check => check (EditableTextCell.value c)
  | None => true
  end = true ->
  data st !! i = Some r ->
  r !! "id" = Some (VStr rowId) ->
  let c' := fst (EditableTextCell.commit meta_updateCell rowId p c st) in
  let st' := snd (EditableTextCell.commit meta_updateCell rowId p c st) in
  c' = {| EditableTextCell.value := EditableTextCell.value c;
          EditableTextCell.editing := false; EditableTextCell.error := "" |}
  /\ (exists r' : gmap string Val,
        data st' !! i = Some r'
        /\ cell_initialValue r' (EditableTextCell.columnKey p)
           = EditableTextCell.value c
        /\ EditableTextCell_sync
             (cell_initialValue r' (EditableTextCell.columnKey p)) c' = c')
  /\ (exists e : gmap string Val,
        editCache st' !! rowId = Some e
        /\ e !! EditableTextCell.columnKey p
           = Some (VStr (EditableTextCell.value c))).
Proof.
  intros Hok Hi Hid c' st'.
  assert (Hc : EditableTextCell.commit meta_updateCell rowId p c st
    = ({| EditableTextCell.value := EditableTextCell.value c;
          EditableTextCell.editing := false; EditableTextCell.error := "" |},
       updateCell rowId (EditableTextCell.columnKey p) (EditableTextCell.value c) st)).
  { unfold EditableTextCell.commit, meta_updateCell.
    destruct (EditableTextCell.validate p); by rewrite ?Hok. }
  unfold c', st'. rewrite Hc. cbn [fst snd].
  split; [done|]. split.
  - exists (<[EditableTextCell.columnKey p := VStr (EditableTextCell.value c)]> r).
    split.
    + rewrite updateCell_data, list_lookup_fmap, Hi. cbn.
      by rewrite bool_decide_eq_true_2.
    + unfold cell_initialValue. rewrite lookup_insert_eq. done.
  - eexists. split; [rewrite updateCell_editCache; apply lookup_insert_eq|].
    apply lookup_insert_eq.
Qed.

Lemma accepted_commit_shows_value_witness :
  let c := {| EditableTextCell.value := "NY"; EditableTextCell.editing := true;
              EditableTextCell.error := "" |} in
  let st := setData [customer "row-3" ""] (initialState NoItem) in
  exists r' : gmap string Val,
    data (snd (EditableTextCell.commit meta_updateCell "row-3" columns.state c st)) !! 0
    = Some r'
    /\ cell_initialValue r' "state" = "NY".
Proof.
  intros c st.
  destruct (accepted_commit_shows_value "row-3" columns.state c st 0
              (customer "row-3" "")) as (_ & (r' & Hr & Hv & _) & _);
    [reflexivity | reflexivity | compute_done |].
  exists r'. split; [exact Hr | exact Hv].
Defined.

(** X19. A refused commit followed by cancel: the cell is back in the display
    mode with the value of the row and no error, whatever was typed, and
    [updateCell] was never called. *)
Theorem failed_commit_then_cancel {W} (upd : UpdateCellFn W) rowId
    (p : EditableTextCell.Props) check initialValue v (w : W) :
  EditableTextCell.validate p = Some check ->
  check v = false ->
  let c := EditableTextCell.change v
             (EditableTextCell.activate (EditableTextCell.initial initialValue)) in
  let c1 := fst (EditableTextCell.commit (Some upd) rowId p c w) in
  let w1 := snd (EditableTextCell.commit (Some upd) rowId p c w) in
  EditableTextCell.editing c1 = true
  /\ EditableTextCell.cancel initialValue c1 = EditableTextCell.initial initialValue
  /\ w1 = w.
Proof.
  intros Hv Hc c c1 w1. unfold c1, w1.
  rewrite (commit_invalid upd rowId p check c w Hv Hc). done.
Qed.

Lemma failed_commit_then_cancel_witness :
  let c := EditableTextCell.change "ca"
             (EditableTextCell.activate (EditableTextCell.initial "CA")) in
  EditableTextCell.cancel "CA"
    (fst (EditableTextCell.commit meta_updateCell "row-3" columns.state c
            (initialState NoItem)))
  = EditableTextCell.initial "CA".
Proof.
  intros c.
  destruct (failed_commit_then_cancel updateCell "row-3" columns.state
              validate_state "CA" "ca" (initialState NoItem))
    as (_ & Hcancel & _); [reflexivity | reflexivity |].
  exact Hcancel.
Defined.

(** ** The creation timestamp *)

Section Timestamp.

Local Open Scope Z_scope.

Lemma length_pad_go w z acc :
  String.length (JsDate.pad_go w z acc) = (w + String.length acc)%nat.
Proof.
  revert z acc. induction w as [|w IH]; intros z acc; cbn; [done|].
  rewrite IH. cbn. lia.
Qed.

Lemma length_pad w z : String.length (JsDate.pad w z) = w.
Proof. unfold JsDate.pad. rewrite length_pad_go. cbn. lia. Qed.

Lemma string_app_cons c (a b : string) : String c a +:+ b = String c (a +:+ b).
Proof. reflexivity. Qed.

Lemma string_app_nil (b : string) : "" +:+ b = b.
Proof. reflexivity. Qed.

Lemma length_string_app (a b : string) :
  String.length (a +:+ b) = (String.length a + String.length b)%nat.
Proof.
  induction a as [|c a IH]; [done|]. rewrite string_app_cons. cbn. by f_equal.
Qed.

Lemma length_str_take n s :
  String.length (Js.str_take n s) = (n `min` String.length s)%nat.
Proof.
  revert s. induction n as [|n IH]; intros [|c s]; cbn; try done.
  by rewrite IH.
Qed.

Lemma length_replace_char a b s :
  String.length (Js.replace (String a "") (String b "") s) = String.length s.
Proof.
  induction s as [|c s IH]; [done|].
  cbn [Js.replace Js.starts_with].
  destruct (Ascii.eqb a c); cbn; [done|]. by rewrite IH.
Qed.

Lemma length_year_string y : (4 <= String.length (JsDate.year_string y))%nat.
Proof.
  unfold JsDate.year_string.
  destruct ((0 <=? y) && (y <=? 9999)).
  - by rewrite length_pad.
  - rewrite length_string_app, length_pad. lia.
Qed.

(** Taking a prefix that ends inside the second part *)
Lemma str_take_app a b n :
  Js.str_take (String.length a + n) (a +:+ b) = a +:+ Js.str_take n b.
Proof.
  induction a as [|c a IH]; [done|]. rewrite !string_app_cons. cbn. by f_equal.
Qed.

Lemma str_take_pad w z n k b :
  k = (w + n)%nat ->
  Js.str_take k (JsDate.pad w z +:+ b) = JsDate.pad w z +:+ Js.str_take n b.
Proof. intros ->. rewrite <- (length_pad w z) at 1. apply str_take_app. Qed.

Lemma str_take_S c n s :
  Js.str_take (S n) (String c s) = String c (Js.str_take n s).
Proof. reflexivity. Qed.

Lemma str_take_0 s : Js.str_take 0 s = "".
Proof. by destruct s. Qed.

Lemma string_app_nil_r (a : string) : a +:+ "" = a.
Proof. induction a as [|c a IH]; [done|]. rewrite string_app_cons. by f_equal. Qed.

Lemma replace_cons c s :
  c <> "T"%char ->
  Js.replace "T" " " (String c s) = String c (Js.replace "T" " " s).
Proof.
  intros Hc. cbn [Js.replace Js.starts_with].
  by destruct (Ascii.eqb_spec "T" c) as [<-|_].
Qed.

Lemma replace_hit s : Js.replace "T" " " (String "T" s) = String " " s.
Proof. reflexivity. Qed.

(** The characters of a padded number are decimal digits. *)
Lemma pad_go_digits w z acc :
  Forall (fun c => c <> "T"%char) (chars acc) ->
  Forall (fun c => c <> "T"%char) (chars (JsDate.pad_go w z acc)).
Proof.
  revert z acc. induction w as [|w IH]; intros z acc Hacc; cbn; [done|].
  apply IH. cbn. constructor; [|done].
  assert (Hd : (Z.to_nat (z mod 10) < 10)%nat).
  { pose proof (Z.mod_pos_bound z 10). lia. }
  destruct (Z.to_nat (z mod 10)) as [|[|[|[|[|[|[|[|[|[|n]]]]]]]]]];
    [done..|lia].
Qed.

Lemma pad_digits w z : Forall (fun c => c <> "T"%char) (chars (JsDate.pad w z)).
Proof. apply pad_go_digits. constructor. Qed.

Lemma replace_skip a b :
  Forall (fun c => c <> "T"%char) (chars a) ->
  Js.replace "T" " " (a +:+ b) = a +:+ Js.replace "T" " " b.
Proof.
  induction a as [|c a IH]; intros Ha; [done|].
  inversion Ha as [|?? Hc Ha']; subst. rewrite !string_app_cons.
  cbn [Js.replace Js.starts_with].
  destruct (Ascii.eqb_spec "T" c) as [<-|_]; [done|].
  by rewrite IH.
Qed.

Lemma replace_no_T a :
  Forall (fun c => c <> "T"%char) (chars a) -> Js.replace "T" " " a = a.
Proof.
  induction a as [|c a IH]; intros Ha; [done|].
  inversion Ha as [|?? Hc Ha']; subst.
  cbn [Js.replace Js.starts_with].
  destruct (Ascii.eqb_spec "T" c) as [<-|_]; [done|].
  by rewrite IH.
Qed.

End Timestamp.

(** X20. The creation timestamp has 19 characters for every time value; when
    the year is in 0..9999 it reads YYYY-MM-DD HH:MM:SS, the UTC date and
    time of day of the time value at second precision, with a space where
    the ISO string has T. *)
Theorem timestamp_format (t : Z) :
  String.length (JsDate.timestamp t) = 19
  /\ forall y m d, JsDate.civil (t / JsDate.msPerDay) = (y, m, d) ->
       (0 <= y <= 9999)%Z ->
       let ms := (t mod JsDate.msPerDay)%Z in
       JsDate.timestamp t
       = JsDate.pad 4 y +:+ "-" +:+ JsDate.pad 2 m +:+ "-" +:+ JsDate.pad 2 d
         +:+ " " +:+ JsDate.pad 2 (ms / 3600000)%Z +:+ ":"
         +:+ JsDate.pad 2 (ms / 60000 mod 60)%Z +:+ ":"
         +:+ JsDate.pad 2 (ms / 1000 mod 60)%Z.
Proof.
  split.
  - unfold JsDate.timestamp. rewrite length_replace_char.
    unfold Js.slice. cbn [Js.str_drop Nat.sub]. rewrite length_str_take.
    unfold JsDate.toISOString. destruct (JsDate.civil _) as [[y m] d].
    rewrite !length_string_app, !length_pad.
    pose proof (length_year_string y) as Hy.
    set (n := String.length (JsDate.year_string y)) in *.
    apply Nat.min_l. cbn [String.length]. lia.
  - intros y m d Hcivil Hy ms.
    unfold JsDate.timestamp, JsDate.toISOString. rewrite Hcivil.
    fold ms. unfold JsDate.year_string.
    rewrite (proj2 (andb_true_iff _ _)) by (split; apply Z.leb_le; lia).
    unfold Js.slice. cbn [Js.str_drop Nat.sub].
    rewrite !string_app_cons, !string_app_nil.
    rewrite (str_take_pad 4 y 15 19), (str_take_S _ 14) by reflexivity.
    rewrite (str_take_pad 2 m 12 14), (str_take_S _ 11) by reflexivity.
    rewrite (str_take_pad 2 d 9 11), (str_take_S _ 8) by reflexivity.
    rewrite (str_take_pad 2 _ 6 8), (str_take_S _ 5) by reflexivity.
    rewrite (str_take_pad 2 _ 3 5), (str_take_S _ 2) by reflexivity.
    rewrite (str_take_pad 2 _ 0 2), str_take_0, string_app_nil_r by reflexivity.
    rewrite (replace_skip (JsDate.pad 4 y)), replace_cons
      by (apply pad_digits || discriminate).
    rewrite (replace_skip (JsDate.pad 2 m)), replace_cons
      by (apply pad_digits || discriminate).
    rewrite (replace_skip (JsDate.pad 2 d)), replace_hit by apply pad_digits.
    reflexivity.
Qed.

Lemma timestamp_format_witness :
  JsDate.timestamp 951782400000 = "2000-02-29 00:00:00".
Proof.
  destruct (timestamp_format 951782400000) as [_ Hfmt].
  rewrite (Hfmt 2000%Z 2%Z 29%Z); [reflexivity | reflexivity | lia].
Defined.
